(** * hazelnut: the machine runtime of [packages/core/src/create-machine.ts]

    A shallow embedding of [createMachine] and of the operations of the
    handle it returns ([start], [stop], [send], [subscribe], [syncProps],
    [matches], [getState], [getContext], [getProps]).

    The closure variables of [createMachine] become the record [machine];
    every operation is a state transformer over it.  Guards are the
    predicates of the filtering ([(params) => boolean]) and are embedded as
    functions to a boolean or an exception: a guard that calls the handle or
    changes something is outside the model.  The objects [config.guards] and
    [config.actions] are read by name ([table?.[name]]), and such a read
    answers the object's own keys and the members it inherits, so both are
    part of a table of handlers.  Action handlers and listeners are callbacks
    that may call back into the handle they close over (the test-suite sends
    an event from inside an action, and listeners throw), so they are
    embedded as programs over the handle's operations, interpreted with a
    bound on the nesting of calls.  Priorities are integers ([number] in the
    source, subtracted by the comparator). *)

From Stdlib Require Import ZArith String Ascii List.
From stdpp Require Import base option list gmap strings pretty.

Open Scope string_scope.
Open Scope list_scope.

(** ** Data model *)

Section Machine.

(** The values stored under the keys of [context] and [props]
    ([Record<string, unknown>]). *)
Context {V : Type}.

Definition mapping : Type := gmap string V.

(** [T['event']]: a [type] tag, the other fields are opaque to the runtime. *)
Record MachineEvent : Type := Event {
  type : string;
  payload : gmap string V
}.

(** [MachineTransition]; [from] is a state or the wildcard ["*"]. *)
Record MachineTransition : Type := Transition {
  from : string;
  event : string;
  to : string;
  action : option string;
  guard : option string;
  priority : option Z
}.

(** [MachineParams]. *)
Record MachineParams : Type := Params {
  p_context : mapping;
  p_event : MachineEvent;
  p_props : mapping
}.

(** Identity of a listener function (the [Set] of listeners compares
    functions by identity). *)
Definition listener_id : Type := nat.

(** The [options] of [subscribe]: [{ immediate?: boolean }]. *)
Record SubscribeOptions : Type := Options {
  immediate : option bool
}.

(** The operations of [MachineReturn], as a callback can call them.
    [CallUnsubscribe l] is the function returned by [subscribe] for [l]. *)
Inductive call : Type :=
| CallStart
| CallStop
| CallSend (ev : MachineEvent)
| CallSubscribe (l : listener_id) (options : option SubscribeOptions)
| CallUnsubscribe (l : listener_id)
| CallMatches (states : list string)
| CallSyncProps (newProps : mapping)
| CallGetState
| CallGetContext
| CallGetProps.

(** What a call gives back to the callback that made it: its value, or the
    exception it threw (which the callback may catch or rethrow). *)
Inductive reply : Type :=
| RVoid
| RBool (b : bool)
| RState (s : string)
| RMapping (x : mapping)
| RThrown (message : string).

(** A callback body: it returns, throws, or calls the handle and goes on. *)
Inductive prog (R : Type) : Type :=
| Ret (r : R)
| Throw (message : string)
| Do (c : call) (k : reply -> prog R).
Arguments Ret {R} r.
Arguments Throw {R} message.
Arguments Do {R} c k.

(** How a call ends: it returns a value or throws an error, given by its
    message. *)
Inductive outcome (A : Type) : Type :=
| Returned (a : A)
| Thrown (message : string).
Arguments Returned {A} a.
Arguments Thrown {A} message.

(** [MachineGuards], [MachineActions] (an action returns a partial context or
    nothing) and the listeners of [subscribe].  What a guard returns counts
    by its truthiness, as the filtering takes it. *)
Definition guard_handler : Type := MachineParams -> outcome bool.
Definition action_handler : Type := MachineParams -> prog (option mapping).
Definition listener : Type := string -> mapping -> mapping -> prog unit.

(** An object used as a table of handlers, as the read [table[name]] sees
    it: the object's own keys, and the members that it inherits through its
    prototype chain (those of [Object.prototype] for an object literal),
    which the read answers for a name that is no own key.  An own key holds
    [None] when its value is [undefined] or another value that [!handler]
    takes for a missing handler.  A value that is no function is a handler
    whose call throws. *)
Record handlers (H : Type) : Type := Handlers {
  own : gmap string (option H);
  inherited : gmap string H
}.
Arguments Handlers {H} own inherited.
Arguments own {H} h.
Arguments inherited {H} h.

(** [MachineConfig]. *)
Record MachineConfig : Type := Config {
  id : option string;
  cfg_context : option mapping;
  cfg_props : option mapping;
  initial : string;
  transitions : list MachineTransition;
  actions : option (handlers action_handler);
  guards : option (handlers guard_handler)
}.

(** The closure variables of [createMachine].  [listeners] is the [Set]: its
    entries in insertion order, a deleted entry leaving a hole, which is how
    iteration over a [Set] that changes under it is specified. *)
Record machine : Type := Machine {
  state : string;
  context : mapping;
  props : mapping;
  listeners : list (option listener_id);
  running : bool;
  processing : bool
}.

(** What a run of the machine does to the outside: handlers it invokes and
    what it writes to [console.error]. *)
Inductive observation : Type :=
| GuardCalled (name : string) (params : MachineParams)
              (result : outcome bool)
| ActionCalled (name : string) (params : MachineParams)
| ListenerCalled (l : listener_id) (s : string) (c p : mapping)
| ConsoleError (message : string).

Definition trace : Type := list observation.

(** ** Computations: state, exceptions, bounded nesting *)

(** [None]: the bound on nested calls was reached. *)
Definition M (A : Type) : Type :=
  machine -> option (outcome A * machine * trace).

Definition ret {A} (a : A) : M A := fun m => Some (Returned a, m, []).
Definition throw {A} (message : string) : M A :=
  fun m => Some (Thrown message, m, []).
Definition bind {A B} (c : M A) (f : A -> M B) : M B := fun m =>
  match c m with
  | None => None
  | Some (Thrown e, m1, tr1) => Some (Thrown e, m1, tr1)
  | Some (Returned a, m1, tr1) =>
      match f a m1 with
      | None => None
      | Some (o, m2, tr2) => Some (o, m2, tr1 ++ tr2)
      end
  end.
Definition get : M machine := fun m => Some (Returned m, m, []).
Definition modify (f : machine -> machine) : M unit :=
  fun m => Some (Returned tt, f m, []).
Definition observe (o : observation) : M unit :=
  fun m => Some (Returned tt, m, [o]).

(** [try { body } finally { fin }] *)
Definition try_finally {A} (body : M A) (fin : machine -> machine) : M A :=
  fun m =>
    match body m with
    | None => None
    | Some (o, m1, tr1) => Some (o, fin m1, tr1)
    end.

(** [try { body } catch (error) { handler error }] *)
Definition try_catch {A} (body : M A) (handler : string -> M A) : M A :=
  fun m =>
    match body m with
    | None => None
    | Some (Returned a, m1, tr1) => Some (Returned a, m1, tr1)
    | Some (Thrown e, m1, tr1) =>
        match handler e m1 with
        | None => None
        | Some (o, m2, tr2) => Some (o, m2, tr1 ++ tr2)
        end
    end.


Notation "'let!' x ':=' c 'in' k" := (bind c (fun x => k))
  (at level 10, x name, c at level 100, k at level 200).
Notation "c >> k" := (bind c (fun _ => k))
  (at level 65, right associativity).

(** ** The helpers imported from [@pistachiojs/core] *)

(** Modelled from the spec: [filter(seq, pred)] is imported, not defined in
    this repository; it returns the elements satisfying [pred] in original
    order.  [pred] is a callback: it is called on the elements in order and
    what it throws leaves [filter]. *)
Fixpoint pistachio_filter {A} (pred : A -> M bool) (seq : list A)
  : M (list A) :=
  match seq with
  | [] => ret []
  | x :: rest =>
      let! keep := pred x in
      let! kept := pistachio_filter pred rest in
      ret (if keep then x :: kept else kept)
  end.

(** Modelled from the spec: [sort(seq, cmp)] is imported; it returns a new
    sequence ordered by [cmp], preserving the relative order of equal
    elements (a stable sort), here by insertion from the right. *)
Fixpoint sort_insert {A} (cmp : A -> A -> Z) (x : A) (sorted : list A)
  : list A :=
  match sorted with
  | [] => [x]
  | y :: rest =>
      if (cmp x y <=? 0)%Z then x :: y :: rest
      else y :: sort_insert cmp x rest
  end.

Definition pistachio_sort {A} (seq : list A) (cmp : A -> A -> Z) : list A :=
  foldr (sort_insert cmp) [] seq.

(** Modelled from the spec: [merge(a, b)] is imported; it returns a shallow
    union of two mappings with [b]'s keys taking precedence.  The object
    spread [{ ...a, ...b }] is the same union. *)
Definition pistachio_merge (a b : mapping) : mapping := b ∪ a.
Definition spread2 (a b : mapping) : mapping := b ∪ a.

(** Modelled from the spec: [freeze(value)] is imported; it returns a value
    that rejects further mutation.  The mappings of this section are values,
    which nothing mutates; the flag itself is in the store model below. *)
Definition pistachio_freeze (value : mapping) : mapping := value.

(** ** [createMachine] *)

Definition set_state (s : string) (m : machine) : machine :=
  Machine s (context m) (props m) (listeners m) (running m) (processing m).
Definition set_context (c : mapping) (m : machine) : machine :=
  Machine (state m) c (props m) (listeners m) (running m) (processing m).
Definition set_props (p : mapping) (m : machine) : machine :=
  Machine (state m) (context m) p (listeners m) (running m) (processing m).
Definition set_listeners (ls : list (option listener_id)) (m : machine)
  : machine :=
  Machine (state m) (context m) (props m) ls (running m) (processing m).
Definition set_running (b : bool) (m : machine) : machine :=
  Machine (state m) (context m) (props m) (listeners m) b (processing m).
Definition set_processing (b : bool) (m : machine) : machine :=
  Machine (state m) (context m) (props m) (listeners m) (running m) b.

(** [Set.prototype.has / add / delete] on the entries of a [Set]. *)
Definition Set_has (l : listener_id) (entries : list (option listener_id))
  : bool :=
  bool_decide (Some l ∈ entries).
Definition Set_add (l : listener_id) (entries : list (option listener_id))
  : list (option listener_id) :=
  if Set_has l entries then entries else entries ++ [Some l].
Definition Set_delete (l : listener_id) (entries : list (option listener_id))
  : list (option listener_id) :=
  (fun entry => if bool_decide (entry = Some l) then None else entry)
    <$> entries.

(** The double quote of the error messages. *)
Definition dquote : string := String "034"%char EmptyString.

Definition guard_not_found (name : string) : string :=
  "Guard " +:+ dquote +:+ name +:+ dquote +:+ " not found.".
Definition action_not_found (name : string) : string :=
  "Action " +:+ dquote +:+ name +:+ dquote +:+ " not found.".

(** [(a, b) => (b.priority ?? 0) - (a.priority ?? 0)] *)
Definition by_priority (a b : MachineTransition) : Z :=
  (default 0 (priority b) - default 0 (priority a))%Z.

(** [table?.[name]], as far as the test [if (!handler)] that follows it can
    tell: [None] when the table is absent, when the name is an own key with
    a value taken for missing, or when the name is neither an own key nor
    inherited; the handler that the read answers otherwise, an own key
    hiding an inherited member of the same name. *)
Definition property {H : Type} (table : option (handlers H)) (name : string)
  : option H :=
  table ≫= (fun object =>
    match own object !! name with
    | Some value => value
    | None => inherited object !! name
    end).

(** [config.guards?.[name]] and [config.actions?.[name]] *)
Definition lookup_guard (config : MachineConfig) (name : string)
  : option guard_handler :=
  property (guards config) name.

Definition lookup_action (config : MachineConfig) (name : string)
  : option action_handler :=
  property (actions config) name.

(** The initial values of the closure variables. *)
Definition createMachine (config : MachineConfig) : machine :=
  {| state := initial config;
     context := default ∅ (cfg_context config);
     props := default ∅ (cfg_props config);
     listeners := [];
     running := false;
     processing := false |}.

Section Operations.

Variable config : MachineConfig.
(** The listener functions of the surrounding program, by identity. *)
Variable code : listener_id -> listener.
(** The bound on the iterations of one notification pass, and the
    interpreter of the callbacks' bodies. *)
Variable bound : nat.
Variable run : forall R : Type, prog R -> M R.

Definition start : M unit :=
  let! m := get in
  if running m then ret tt
  else modify (set_running true).

Definition stop : M unit :=
  let! m := get in
  if negb (running m) then ret tt
  else modify (set_running false).

Definition getState : M string :=
  let! m := get in ret (state m).

Definition getContext : M mapping :=
  let! m := get in ret (pistachio_freeze (context m)).

Definition getProps : M mapping :=
  let! m := get in ret (pistachio_freeze (props m)).

Definition matches (states : list string) : M bool :=
  let! m := get in ret (bool_decide (state m ∈ states)).

(** [listener(state, getContext(), getProps())] *)
Definition call_listener (l : listener_id) : M unit :=
  let! m := get in
  let! c := getContext in
  let! p := getProps in
  observe (ListenerCalled l (state m) c p) >>
  run unit (code l (state m) c p).

(** The loop of [notify], from entry [i] of the [Set] on: the iteration
    reads the [Set] as it is when it reaches an entry. *)
Fixpoint notify_from (fuel : nat) (i : nat) : M unit :=
  match fuel with
  | O => fun _ => None
  | S fuel' =>
      let! m := get in
      match listeners m !! i with
      | None => ret tt
      | Some None => notify_from fuel' (S i)
      | Some (Some l) =>
          try_catch (call_listener l)
                    (fun error => observe (ConsoleError error)) >>
          notify_from fuel' (S i)
      end
  end.

Definition notify : M unit := notify_from bound 0.

(** The predicate that [send] gives to [filter]. *)
Definition candidate (ev : MachineEvent) (transition : MachineTransition)
  : M bool :=
  let! m := get in
  if negb (String.eqb (from transition) "*"
           || String.eqb (from transition) (state m))
     || negb (String.eqb (event transition) (type ev))
  then ret false
  else
    match guard transition with
    | Some name =>
        if String.eqb name EmptyString then ret true
        else
          match lookup_guard config name with
          | None => throw (guard_not_found name)
          | Some handler =>
              let! c := getContext in
              let! p := getProps in
              let result := handler (Params c ev p) in
              observe (GuardCalled name (Params c ev p) result) >>
              match result with
              | Returned verdict => ret verdict
              | Thrown error => throw error
              end
          end
    | None => ret true
    end.

(** The [if (transition.action) { ... }] block of [send]. *)
Definition run_action (ev : MachineEvent) (transition : MachineTransition)
  : M unit :=
  match action transition with
  | Some name =>
      if String.eqb name EmptyString then ret tt
      else
        match lookup_action config name with
        | None => throw (action_not_found name)
        | Some handler =>
            let! c := getContext in
            let! p := getProps in
            observe (ActionCalled name (Params c ev p)) >>
            let! result := run (option mapping) (handler (Params c ev p)) in
            match result with
            | Some partial =>
                modify (fun m => set_context (spread2 (context m) partial) m)
            | None => ret tt
            end
        end
  | None => ret tt
  end.

(** [send], from [state = transition.to] to [notify()]. *)
Definition apply_transition (ev : MachineEvent)
    (transition : MachineTransition) : M unit :=
  modify (set_state (to transition)) >>
  run_action ev transition >>
  notify.

(** The body of the [try] of [send]. *)
Definition dispatch (ev : MachineEvent) : M unit :=
  let! found := pistachio_filter (candidate ev) (transitions config) in
  if (length found =? 0)%nat then ret tt
  else
    match pistachio_sort found by_priority !! 0%nat with
    | Some transition => apply_transition ev transition
    | None => throw "TypeError: transition is undefined"
    end.

Definition send (ev : MachineEvent) : M unit :=
  let! m := get in
  if negb (running m) then ret tt
  else if processing m then ret tt
  else
    modify (set_processing true) >>
    try_finally (dispatch ev) (set_processing false).

(** [subscribe]; the function it returns is [unsubscribe l]. *)
Definition subscribe (l : listener_id) (options : option SubscribeOptions)
  : M unit :=
  let immediate :=
    match options with
    | Some o => default true (immediate o)
    | None => true
    end in
  modify (fun m => set_listeners (Set_add l (listeners m)) m) >>
  if immediate then call_listener l else ret tt.

Definition unsubscribe (l : listener_id) : M bool :=
  let! m := get in
  modify (fun m => set_listeners (Set_delete l (listeners m)) m) >>
  ret (Set_has l (listeners m)).

Definition syncProps (newProps : mapping) : M unit :=
  modify (fun m => set_props (pistachio_merge (props m) newProps) m) >>
  notify.

(** A call made by a callback, and what the callback gets back. *)
Definition perform (c : call) : M reply :=
  match c with
  | CallStart => start >> ret RVoid
  | CallStop => stop >> ret RVoid
  | CallSend ev => send ev >> ret RVoid
  | CallSubscribe l options => subscribe l options >> ret RVoid
  | CallUnsubscribe l => let! b := unsubscribe l in ret (RBool b)
  | CallMatches states => let! b := matches states in ret (RBool b)
  | CallSyncProps newProps => syncProps newProps >> ret RVoid
  | CallGetState => let! s := getState in ret (RState s)
  | CallGetContext => let! c := getContext in ret (RMapping c)
  | CallGetProps => let! p := getProps in ret (RMapping p)
  end.

Definition as_reply (c : M reply) : M reply :=
  try_catch c (fun error => ret (RThrown error)).

End Operations.

(** The interpreter of callback bodies: [n] bounds the nesting of calls and
    the iterations of each notification pass. *)
Fixpoint run (config : MachineConfig) (code : listener_id -> listener)
    (n : nat) (R : Type) (p : prog R) {struct n} : M R :=
  match n with
  | O => fun _ => None
  | S n' =>
      match p with
      | Ret r => ret r
      | Throw message => throw message
      | Do c k =>
          let! answer :=
            as_reply (perform config code n' (run config code n') c) in
          run config code n' R (k answer)
      end
  end.

End Machine.

Arguments Ret {V R} r.
Arguments Throw {V R} message.
Arguments Do {V R} c k.
Arguments Returned {A} a.
Arguments Thrown {A} message.
Arguments Handlers {H} own inherited.
Arguments own {H} h.
Arguments inherited {H} h.

(** ** The objects behind [context] and [props]

    The section above handles the mappings as values.  What [getContext] and
    [getProps] promise about identity and mutation is about the objects that
    hold them, so here the closure variables [context] and [props] are
    references into a store of objects, each with its frozen flag, and the
    lines of [createMachine] that read or rebind the two variables are
    embedded at that level. *)

Section Store.

Context {V : Type}.

Definition loc : Type := positive.

Record object : Type := Object {
  fields : gmap string V;
  frozen : bool
}.

Record store : Type := Store_ {
  heap : gmap loc object;
  context_ref : loc;
  props_ref : loc
}.

(** The own properties of the object at [l], as a spread reads them. *)
Definition read (l : loc) (s : store) : gmap string V :=
  default ∅ (fields <$> heap s !! l).

(** An object literal: a new object. *)
Definition alloc (o : object) (s : store) : loc * store :=
  let l := fresh (dom (heap s)) in
  (l, Store_ (<[l := o]> (heap s)) (context_ref s) (props_ref s)).

(** Modelled from the spec: [freeze(value)] is imported; the value it
    returns rejects further mutation, throwing on write attempts.  It sets
    the flag of the object and returns the object. *)
Definition freeze (l : loc) (s : store) : loc * store :=
  (l, Store_ (alter (fun o => Object (fields o) true) l (heap s))
             (context_ref s) (props_ref s)).

(** [freeze({ ...context })] *)
Definition store_getContext (s : store) : loc * store :=
  let (l, s1) := alloc (Object (read (context_ref s) s) false) s in
  freeze l s1.

(** [freeze({ ...props })] *)
Definition store_getProps (s : store) : loc * store :=
  let (l, s1) := alloc (Object (read (props_ref s) s) false) s in
  freeze l s1.

(** [context = { ...context, ...result }] in [send]. *)
Definition store_merge_context (partial : gmap string V) (s : store)
  : store :=
  let (l, s1) :=
    alloc (Object (partial ∪ read (context_ref s) s) false) s in
  Store_ (heap s1) l (props_ref s1).

(** [props = merge(props, newProps)] in [syncProps]; modelled from the spec,
    [merge] returns the union as a new mapping. *)
Definition store_merge_props (newProps : gmap string V) (s : store)
  : store :=
  let (l, s1) :=
    alloc (Object (newProps ∪ read (props_ref s) s) false) s in
  Store_ (heap s1) (context_ref s1) l.

(** [object[key] = value] and [delete object[key]] by any code holding the
    object (the module is strict: on a frozen object both throw). *)
Definition assign (l : loc) (key : string) (value : V) (s : store)
  : outcome unit * store :=
  match heap s !! l with
  | Some o =>
      if frozen o then (Thrown "TypeError: object is not extensible", s)
      else (Returned tt,
            Store_ (<[l := Object (<[key := value]> (fields o)) false]>
                      (heap s))
                   (context_ref s) (props_ref s))
  | None => (Thrown "TypeError: not an object", s)
  end.

Definition delete_key (l : loc) (key : string) (s : store)
  : outcome unit * store :=
  match heap s !! l with
  | Some o =>
      if frozen o then (Thrown "TypeError: cannot delete property", s)
      else (Returned tt,
            Store_ (<[l := Object (delete key (fields o)) false]> (heap s))
                   (context_ref s) (props_ref s))
  | None => (Thrown "TypeError: not an object", s)
  end.

(** Everything the runtime and the code around it can do to the store. *)
Inductive store_step : Type :=
| TakeContext                       (* a call of [getContext] *)
| TakeProps                         (* a call of [getProps] *)
| MergeContext (partial : gmap string V)   (* a transition with a result *)
| MergeProps (newProps : gmap string V)    (* [syncProps] *)
| NewObject (o : object)            (* an object literal of other code *)
| Assign (l : loc) (key : string) (value : V)
| DeleteKey (l : loc) (key : string).

Definition store_do (step : store_step) (s : store) : store :=
  match step with
  | TakeContext => (store_getContext s).2
  | TakeProps => (store_getProps s).2
  | MergeContext partial => store_merge_context partial s
  | MergeProps newProps => store_merge_props newProps s
  | NewObject o => (alloc o s).2
  | Assign l key value => (assign l key value s).2
  | DeleteKey l key => (delete_key l key s).2
  end.

Definition store_run (steps : list store_step) (s : store) : store :=
  foldl (fun s step => store_do step s) s steps.

(** [let context = config.context ?? {}] and the same for [props]: the
    variables are bound to the objects of the configuration when it has
    them, to new empty objects otherwise. *)
Definition store_create (given_context given_props : option loc)
    (s : store) : store :=
  let (c, s1) :=
    match given_context with
    | Some l => (l, s)
    | None => alloc (Object ∅ false) s
    end in
  let (p, s2) :=
    match given_props with
    | Some l => (l, s1)
    | None => alloc (Object ∅ false) s1
    end in
  Store_ (heap s2) c p.

(** Both variables refer to objects of the store. *)
Definition store_wf (s : store) : Prop :=
  is_Some (heap s !! context_ref s) /\ is_Some (heap s !! props_ref s).

(** [l], obtained in [s1] from the store [s], is a frozen snapshot of the
    object at [source]: a new object, different from the objects of both
    variables, holding the values [source] had in [s] and frozen; taking it
    changed no other object and rebound no variable; writing to it or
    deleting from it throws and leaves the whole store as it is; and
    whatever is done to the store afterwards, it holds the same values and
    no later snapshot is the same object. *)
Definition frozen_snapshot (source : loc) (s : store) (l : loc) (s1 : store)
  : Prop :=
  heap s !! l = None /\
  l <> context_ref s1 /\ l <> props_ref s1 /\
  heap s1 !! l = Some (Object (read source s) true) /\
  context_ref s1 = context_ref s /\ props_ref s1 = props_ref s /\
  (forall l', l' <> l -> heap s1 !! l' = heap s !! l') /\
  (forall key value, exists message,
      assign l key value s1 = (Thrown message, s1)) /\
  (forall key, exists message, delete_key l key s1 = (Thrown message, s1)) /\
  (forall steps,
      heap (store_run steps s1) !! l = Some (Object (read source s) true) /\
      (store_getContext (store_run steps s1)).1 <> l /\
      (store_getProps (store_run steps s1)).1 <> l).

End Store.

(** ** Vocabulary of the statements *)

Section Vocabulary.

Context {V : Type}.

Definition prio (t : MachineTransition) : Z := default 0%Z (priority t).

(** [t] matches the current state (or is a wildcard) and the event's type. *)
Definition applies (m : @machine V) (ev : @MachineEvent V)
    (t : MachineTransition) : bool :=
  (String.eqb (from t) "*" || String.eqb (from t) (state m))
  && String.eqb (event t) (type ev).

(** The parameters a handler gets when called on [m] for [ev]. *)
Definition params_of (m : @machine V) (ev : @MachineEvent V)
  : @MachineParams V :=
  Params (context m) ev (props m).

(** [t] applies and names (by a non-empty name) a guard for which the read
    of the guards object answers no handler. *)
Definition names_missing_guard (config : @MachineConfig V) (m : @machine V)
    (ev : @MachineEvent V) (t : MachineTransition) : bool :=
  applies m ev t &&
  match guard t with
  | Some name =>
      negb (String.eqb name EmptyString)
      && bool_decide (lookup_guard config name = None)
  | None => false
  end.

(** [t] applies and names (by a non-empty name) a guard that the guards
    object answers and whose call throws. *)
Definition guard_throws (config : @MachineConfig V) (m : @machine V)
    (ev : @MachineEvent V) (t : MachineTransition) : bool :=
  applies m ev t &&
  match guard t with
  | Some name =>
      negb (String.eqb name EmptyString) &&
      match lookup_guard config name with
      | Some handler =>
          match handler (params_of m ev) with
          | Thrown _ => true
          | Returned _ => false
          end
      | None => false
      end
  | None => false
  end.

(** The filtering does not get past [t]: its guard is missing or throws. *)
Definition stops_filtering (config : @MachineConfig V) (m : @machine V)
    (ev : @MachineEvent V) (t : MachineTransition) : bool :=
  names_missing_guard config m ev t || guard_throws config m ev t.

(** [t] applies and its guard, if it names one, is answered by the guards
    object, returns and accepts the parameters. *)
Definition passes (config : @MachineConfig V) (m : @machine V)
    (ev : @MachineEvent V) (t : MachineTransition) : bool :=
  applies m ev t &&
  match guard t with
  | Some name =>
      if String.eqb name EmptyString then true
      else
        match lookup_guard config name with
        | Some handler =>
            match handler (params_of m ev) with
            | Returned verdict => verdict
            | Thrown _ => false
            end
        | None => false
        end
  | None => true
  end.

(** [t] applies and its guard is answered by the guards object, returns and
    rejects the parameters. *)
Definition rejected (config : @MachineConfig V) (m : @machine V)
    (ev : @MachineEvent V) (t : MachineTransition) : bool :=
  applies m ev t &&
  match guard t with
  | Some name =>
      negb (String.eqb name EmptyString) &&
      match lookup_guard config name with
      | Some handler =>
          match handler (params_of m ev) with
          | Returned verdict => negb verdict
          | Thrown _ => false
          end
      | None => false
      end
  | None => false
  end.

(** The transitions that survive the filtering, in the order of the table. *)
Definition candidates (config : @MachineConfig V) (m : @machine V)
    (ev : @MachineEvent V) : list MachineTransition :=
  List.filter (passes config m ev) (transitions config).

(** The guard call that filtering makes for [t], if any, and the calls it
    makes for [ts], in order. *)
Definition guard_call (config : @MachineConfig V) (m : @machine V)
    (ev : @MachineEvent V) (t : MachineTransition) : trace :=
  if applies m ev t then
    match guard t with
    | Some name =>
        if String.eqb name EmptyString then []
        else
          match lookup_guard config name with
          | Some handler =>
              [GuardCalled name (params_of m ev) (handler (params_of m ev))]
          | None => []
          end
    | None => []
    end
  else [].

Definition guard_calls (config : @MachineConfig V) (m : @machine V)
    (ev : @MachineEvent V) (ts : list MachineTransition) : trace :=
  flat_map (guard_call config m ev) ts.

Definition is_guard_call (o : @observation V) : bool :=
  match o with GuardCalled _ _ _ => true | _ => false end.
Definition is_action_call (o : @observation V) : bool :=
  match o with ActionCalled _ _ => true | _ => false end.
Definition is_call_of (l : listener_id) (o : @observation V) : bool :=
  match o with ListenerCalled l' _ _ _ => Nat.eqb l l' | _ => false end.

(** The listeners registered in a [Set], in iteration order. *)
Definition registered (entries : list (option listener_id))
  : list listener_id :=
  omap (fun entry => entry) entries.

(** What a notification pass over the listeners of [m] shows when the
    listeners make no call themselves: each registered listener, in order,
    called with the state, context and props of [m], and each error thrown
    written to [console.error]. *)
Definition report (code : listener_id -> @listener V) (m : @machine V)
    (l : listener_id) : trace :=
  ListenerCalled l (state m) (context m) (props m) ::
  match code l (state m) (context m) (props m) with
  | Throw message => [ConsoleError message]
  | _ => []
  end.

Definition notification (code : listener_id -> @listener V)
    (m : @machine V) : trace :=
  flat_map (report code m) (registered (listeners m)).

(** [subscribe] called without options, without an [immediate] field, or
    with [immediate: true]. *)
Definition immediate_by_default (options : option SubscribeOptions) : Prop :=
  options = None \/ options = Some (Options None) \/
  options = Some (Options (Some true)).


(** A callback body that makes no call: it only returns or throws. *)
Definition direct {R} (p : @prog V R) : Prop :=
  match p with Do _ _ => False | _ => True end.

End Vocabulary.

Section Invariants.

Context {V : Type}.

(** What is left alone from [m] to [m'] by a run that observes [tr]: the
    state, the context and the latch, and no guard or action is called. *)
Definition undisturbed (m m' : @machine V) (tr : @trace V) : Prop :=
  state m' = state m /\
  context m' = context m /\
  processing m' = processing m /\
  Forall (fun o => is_guard_call o = false /\ is_action_call o = false) tr.

End Invariants.

(** ** The values of the test programs *)

(** The values that [context], [props] and the events hold in the programs
    below: numbers, strings and objects. *)
#[local] Set Warnings "-register-all".
Inductive value : Type :=
| VNumber (n : Z)
| VString (s : string)
| VObject (fields : gmap string value).
#[local] Set Warnings "register-all".

(** [if (v)]: the number 0 and the empty string are the falsy ones here. *)
Definition truthy (v : value) : bool :=
  match v with
  | VNumber n => negb (n =? 0)%Z
  | VString s => negb (String.eqb s EmptyString)
  | VObject _ => true
  end.

(** The characters of a string under their indices, from index [i] on. *)
Fixpoint indexed (i : nat) (s : string) : gmap string value :=
  match s with
  | EmptyString => ∅
  | String c rest =>
      <[pretty i := VString (String c EmptyString)]> (indexed (S i) rest)
  end.

(** [{ ...v }]: the own enumerable properties that a spread copies. *)
Definition spread (v : value) : gmap string value :=
  match v with
  | VNumber _ => ∅
  | VString s => indexed 0 s
  | VObject fields => fields
  end.

(** The event and the parameters of a handler, as objects. *)
Definition event_object (ev : @MachineEvent value) : value :=
  VObject (<["type" := VString (type ev)]> (payload ev)).

Definition params_object (params : @MachineParams value) : value :=
  VObject {[ "context" := VObject (p_context params);
             "event" := event_object (p_event params);
             "props" := VObject (p_props params) ]}.

(** *** [Object.prototype]

    An object literal inherits the members of [Object.prototype], and a read
    by name answers them like the object's own keys. *)
Definition Object_prototype_names : list string :=
  ["constructor"; "__defineGetter__"; "__defineSetter__"; "hasOwnProperty";
   "__lookupGetter__"; "__lookupSetter__"; "isPrototypeOf";
   "propertyIsEnumerable"; "toString"; "valueOf"; "__proto__";
   "toLocaleString"].

(** The [TypeError] of the engine; the wording of its message is the
    engine's own. *)
Definition type_error : string := "TypeError".

(** What calling the member [name] as [handler(params)] does.  The call has
    no receiver: [this] is [undefined] (module code is strict).
    [constructor] is [Object], which returns an object given to it as it is,
    here [params]; [toString] answers [undefined] with the tag below;
    [__proto__] is the prototype object, which is no function; each of the
    other methods converts [this] to an object and so throws. *)
Definition Object_prototype_call (name : string)
    (params : @MachineParams value) : outcome value :=
  if String.eqb name "constructor" then Returned (params_object params)
  else if String.eqb name "toString"
       then Returned (VString "[object Undefined]")
       else Thrown type_error.

(** The member called as a guard: the filtering takes what it returns by
    its truthiness. *)
Definition inherited_guard (name : string) : @guard_handler value :=
  fun params =>
    match Object_prototype_call name params with
    | Returned v => Returned (truthy v)
    | Thrown error => Thrown error
    end.

(** The member called as an action: [send] spreads what it returns into the
    context when it is truthy. *)
Definition inherited_action (name : string) : @action_handler value :=
  fun params =>
    match Object_prototype_call name params with
    | Returned v => Ret (if truthy v then Some (spread v) else None)
    | Thrown error => Throw error
    end.

(** The object literal [{ name: handler, ... }] as a table of handlers. *)
Definition object_literal {H : Type} (member : string -> H)
    (fields : gmap string H) : handlers H :=
  {| own := Some <$> fields;
     inherited :=
       list_to_map ((fun name => (name, member name))
                      <$> Object_prototype_names) |}.

Definition guards_literal (fields : gmap string (@guard_handler value))
  : handlers (@guard_handler value) :=
  object_literal inherited_guard fields.

Definition actions_literal (fields : gmap string (@action_handler value))
  : handlers (@action_handler value) :=
  object_literal inherited_action fields.

(** ** The traffic light of the test-suite

    The configurations that [tests/create-machine.test.ts] builds. *)

Definition TOGGLE : @MachineEvent value := Event "TOGGLE" ∅.
Definition RESET : @MachineEvent value := Event "RESET" ∅.

Definition count (c : gmap string value) : Z :=
  match c !! "count" with Some (VNumber n) => n | _ => 0%Z end.
Definition maxCount (p : gmap string value) : Z :=
  match p !! "maxCount" with Some (VNumber n) => n | _ => 0%Z end.

(** The machine after [createMachine(config)] and [start()]. *)
Definition started {V : Type} (config : @MachineConfig V) : @machine V :=
  set_running true (createMachine config).

(** "should sort and use highest priority from multiple matching
    transitions" *)
Definition priority_light : @MachineConfig value :=
  {| id := None; cfg_context := None; cfg_props := None;
     initial := "green";
     transitions :=
       [Transition "green" "TOGGLE" "red" None None (Some 5%Z);
        Transition "*" "TOGGLE" "green" None None (Some 10%Z);
        Transition "green" "TOGGLE" "green" None None (Some 3%Z)];
     actions := None; guards := None |}.

(** "should use first transition when priorities are equal" *)
Definition tied_light : @MachineConfig value :=
  {| id := None; cfg_context := None; cfg_props := None;
     initial := "green";
     transitions :=
       [Transition "green" "TOGGLE" "red" None None (Some 5%Z);
        Transition "*" "TOGGLE" "green" None None (Some 5%Z)];
     actions := None; guards := None |}.

(** "should throw error when action handler not found" *)
Definition actionless_light : @MachineConfig value :=
  {| id := None; cfg_context := None; cfg_props := None;
     initial := "green";
     transitions :=
       [Transition "green" "TOGGLE" "red" (Some "increment") None None];
     actions := Some (actions_literal ∅); guards := None |}.




(** "should evaluate guards before actions", with a second transition of
    lower priority and no guard. *)
Definition canIncrement : @guard_handler value :=
  fun params =>
    Returned (count (p_context params) <? maxCount (p_props params))%Z.

Definition increment : @action_handler value :=
  fun params =>
    Ret (Some {[ "count" := VNumber (count (p_context params) + 1) ]}).

Definition guarded_light : @MachineConfig value :=
  {| id := None;
     cfg_context := Some {[ "count" := VNumber 10 ]};
     cfg_props := Some {[ "maxCount" := VNumber 5 ]};
     initial := "green";
     transitions :=
       [Transition "green" "TOGGLE" "red" (Some "increment")
                   (Some "canIncrement") (Some 1%Z);
        Transition "green" "TOGGLE" "amber" None None None];
     actions := Some (actions_literal {[ "increment" := increment ]});
     guards := Some (guards_literal {[ "canIncrement" := canIncrement ]}) |}.

(** "should merge action result with existing context" *)
Definition add_ten : @action_handler value :=
  fun params =>
    Ret (Some {[ "count" := VNumber (count (p_context params) + 10) ]}).

Definition merging_light : @MachineConfig value :=
  {| id := None;
     cfg_context := Some {[ "count" := VNumber 5 ]};
     cfg_props := None;
     initial := "green";
     transitions :=
       [Transition "green" "TOGGLE" "red" (Some "increment") None None];
     actions := Some (actions_literal {[ "increment" := add_ten ]});
     guards := None |}.

(** "should prevent re-entrant event sends during processing" *)
Definition increment_and_reset : @action_handler value :=
  fun params =>
    Do (CallSend RESET)
       (fun _ =>
          Ret (Some {[ "count" := VNumber (count (p_context params) + 1) ]})).

Definition reset_count : @action_handler value :=
  fun _ => Ret (Some {[ "count" := VNumber 0 ]}).

Definition reentrant_light : @MachineConfig value :=
  {| id := None;
     cfg_context := Some {[ "count" := VNumber 0 ]};
     cfg_props := None;
     initial := "green";
     transitions :=
       [Transition "green" "TOGGLE" "red" (Some "increment") None None;
        Transition "red" "RESET" "green" (Some "reset") None None];
     actions :=
       Some (actions_literal
               {[ "increment" := increment_and_reset;
                  "reset" := reset_count ]});
     guards := None |}.

(** "should continue notifying other listeners when one throws error":
    listener 0 throws, the others return. *)
Definition test_listeners : listener_id -> @listener value :=
  fun l _ _ _ =>
    match l with
    | O => Throw "Listener error"
    | _ => Ret tt
    end.

(** A machine with both listeners subscribed, [immediate: false]. *)
Definition observed_light : @machine value :=
  set_listeners [Some 0; Some 1] (started priority_light).

(** A store with the context [{ count: 0 }] and the props [{ maxCount: 5 }]
    of a configuration. *)
Definition test_store : @store Z :=
  {| heap := {[ 1%positive := Object {[ "count" := 0%Z ]} false;
                2%positive := Object {[ "maxCount" := 5%Z ]} false ]};
     context_ref := 1%positive;
     props_ref := 2%positive |}.

(** ** Callers of the handle

    What the code around a machine does with it: a caller that sends several
    events one after the other (an error thrown by one [send] leaves the
    caller, the later events are not sent), and the vocabulary of the
    statements about listeners that unsubscribe themselves. *)

Section Callers.

Context {V : Type}.

Fixpoint send_all (config : @MachineConfig V)
    (code : listener_id -> @listener V) (bound : nat)
    (run : forall R : Type, @prog V R -> @M V R)
    (evs : list (@MachineEvent V)) : @M V unit :=
  match evs with
  | [] => ret tt
  | ev :: rest =>
      bind (send config code bound run ev)
           (fun _ => send_all config code bound run rest)
  end.

(** The transition has no action: the field is absent or empty. *)
Definition no_action (t : MachineTransition) : Prop :=
  action t = None \/ action t = Some EmptyString.

(** The body of a listener that unsubscribes itself when called and returns:
    [() => { unsubscribe() }]. *)
Definition unsubscribes_itself (code : listener_id -> @listener V)
    (l : listener_id) : Prop :=
  forall s c p, code l s c p = Do (CallUnsubscribe l) (fun _ => Ret tt).

(** The entry of the [Set] that a pass leaves for an entry it found, when the
    listeners marked by [once] unsubscribe themselves. *)
Definition after_pass (once : listener_id -> bool)
    (entry : option listener_id) : option listener_id :=
  match entry with
  | Some l => if once l then None else Some l
  | None => None
  end.

(** What the pass shows for [l]: its call, and for a listener that does not
    unsubscribe itself the error it throws, if any. *)
Definition report_once (code : listener_id -> @listener V)
    (once : listener_id -> bool) (m : @machine V) (l : listener_id)
  : trace :=
  if once l then [ListenerCalled l (state m) (context m) (props m)]
  else report code m l.

Definition is_listener_call (o : @observation V) : bool :=
  match o with ListenerCalled _ _ _ _ => true | _ => false end.

(** The number of calls of [l] in a trace. *)
Definition calls_of (l : listener_id) (tr : @trace V) : nat :=
  length (List.filter (is_call_of l) tr).

(** The states that the configuration names as a place to be: the initial
    state and the targets of the transitions. *)
Definition declared (config : @MachineConfig V) (s : string) : Prop :=
  s = initial config \/ In s (map to (transitions config)).

(** A callback that does not catch what a call throws: it throws it on. *)
Definition rethrow (r : @reply V) : @prog V unit :=
  match r with
  | RThrown e => Throw e
  | _ => Ret tt
  end.

(** The body of a listener that subscribes another listener when called:
    [() => { machine.subscribe(other) }]. *)
Definition subscribes (code : listener_id -> @listener V)
    (l other : listener_id) : Prop :=
  forall s c p, code l s c p = Do (CallSubscribe other None) rethrow.

(** What the handle answers to a read made while the action of [w] runs in
    a dispatch started on [m]. *)
Definition answer_in_action (m : @machine V) (w : MachineTransition)
    (c : @call V) : option (@reply V) :=
  match c with
  | CallGetState => Some (RState (to w))
  | CallMatches states => Some (RBool (bool_decide (to w ∈ states)))
  | CallGetContext => Some (RMapping (context m))
  | CallGetProps => Some (RMapping (props m))
  | _ => None
  end.

End Callers.

(** ** More traffic lights *)



(** An action that throws. *)
Definition failing_light : @MachineConfig value :=
  {| id := None;
     cfg_context := Some {[ "count" := VNumber 0 ]};
     cfg_props := None;
     initial := "green";
     transitions :=
       [Transition "green" "TOGGLE" "red" (Some "increment") None None];
     actions :=
       Some (actions_literal {[ "increment" := fun _ => Throw "boom" ]});
     guards := None |}.

(** Listener 0 unsubscribes itself when called, listener 1 throws, the
    others return. *)
Definition once_listeners : listener_id -> @listener value :=
  fun l _ _ _ =>
    match l with
    | 0 => Do (CallUnsubscribe 0) (fun _ => Ret tt)
    | 1 => Throw "Listener error"
    | _ => Ret tt
    end.

Definition is_once (l : listener_id) : bool := Nat.eqb l 0.

(** Every listener sends [TOGGLE] when called. *)
Definition toggling_listeners : listener_id -> @listener value :=
  fun _ _ _ _ => Do (CallSend TOGGLE) (fun _ => Ret tt).

(** Listener 0 subscribes listener 1 when called, listener 1 throws, the
    others return. *)
Definition subscribing_listeners : listener_id -> @listener value :=
  fun l _ _ _ =>
    match l with
    | 0 => Do (CallSubscribe 1 None) rethrow
    | 1 => Throw "Listener error"
    | _ => Ret tt
    end.

(** An action that counts one when the machine is in [red] as it runs. *)
Definition count_when_red : @action_handler value :=
  fun params =>
    Do (CallMatches ["red"])
       (fun r =>
          Ret (match r with
               | RBool true =>
                   Some {[ "count" := VNumber (count (p_context params) + 1) ]}
               | _ => None
               end)).

Definition asking_light : @MachineConfig value :=
  {| id := None;
     cfg_context := Some {[ "count" := VNumber 0 ]};
     cfg_props := None;
     initial := "green";
     transitions :=
       [Transition "green" "TOGGLE" "red" (Some "increment") None None];
     actions := Some (actions_literal {[ "increment" := count_when_red ]});
     guards := None |}.

(** * Properties *)

(** ** The stable sort and its first element *)

Lemma pistachio_sort_cons {A} (cmp : A -> A -> Z) (x : A) (l : list A) :
  pistachio_sort (x :: l) cmp = sort_insert cmp x (pistachio_sort l cmp).
Proof. reflexivity. Qed.

Lemma sort_insert_first {A} (cmp : A -> A -> Z) (x y : A) (rest : list A) :
  sort_insert cmp x (y :: rest) !! 0%nat
  = Some (if (cmp x y <=? 0)%Z then x else y).
Proof. simpl. destruct (cmp x y <=? 0)%Z; reflexivity. Qed.

(** The first element of the sorted candidates is the first one of highest
    priority in the order they had. *)
Lemma sort_by_priority_first (found : list MachineTransition) :
  found <> [] ->
  exists before w after,
    found = before ++ w :: after /\
    pistachio_sort found by_priority !! 0%nat = Some w /\
    Forall (fun t => (prio t < prio w)%Z) before /\
    Forall (fun t => (prio t <= prio w)%Z) after.
Proof.
  induction found as [|x rest IH]; [congruence|]. intros _.
  destruct rest as [|y rest'].
  - exists [], x, []. repeat split; constructor.
  - destruct IH as (before & w & after & Hsplit & Hfirst & Hlt & Hle);
      [discriminate|].
    rewrite pistachio_sort_cons.
    destruct (pistachio_sort (y :: rest') by_priority) as [|z zs];
      [discriminate|].
    injection Hfirst as ->. rewrite sort_insert_first.
    unfold by_priority at 1. fold (prio w) (prio x).
    destruct (Z.leb_spec (prio w - prio x) 0) as [Hge|Hlow].
    + exists [], x, (y :: rest'). repeat split; [constructor|].
      rewrite Hsplit. apply Forall_app. split.
      * eapply Forall_impl; [exact Hlt|]. intros t Ht. simpl in Ht. lia.
      * constructor; [lia|].
        eapply Forall_impl; [exact Hle|]. intros t Ht. simpl in Ht. lia.
    + exists (x :: before), w, after. rewrite Hsplit.
      repeat split; [|exact Hle]. constructor; [lia|exact Hlt].
Qed.

(** ** The filtering of the transitions *)

Section Filtering.

Context {V : Type}.
Variable config : @MachineConfig V.

Lemma stops_filtering_false (ev : MachineEvent) (t : MachineTransition)
    (m : machine) :
  stops_filtering config m ev t = false ->
  names_missing_guard config m ev t = false /\
  guard_throws config m ev t = false.
Proof. unfold stops_filtering. apply orb_false_elim. Qed.

Lemma candidate_verdict (ev : MachineEvent) (t : MachineTransition)
    (m : machine) :
  stops_filtering config m ev t = false ->
  candidate config ev t m
  = Some (Returned (passes config m ev t), m, guard_call config m ev t).
Proof.
  intros [Hmissing Hthrows]%stops_filtering_false. revert Hmissing Hthrows.
  unfold names_missing_guard, guard_throws, candidate, passes, guard_call,
    applies, params_of, bind, get.
  cbn.
  destruct (String.eqb (from t) "*" || String.eqb (from t) (state m));
    destruct (String.eqb (event t) (type ev)); cbn; try reflexivity.
  destruct (guard t) as [name|]; [|reflexivity].
  destruct (String.eqb name EmptyString); cbn; [reflexivity|].
  destruct (lookup_guard config name) as [handler|]; cbn.
  - destruct (handler _) as [verdict|error]; cbn; [reflexivity|discriminate].
  - discriminate.
Qed.

Lemma candidate_missing (ev : MachineEvent) (t : MachineTransition)
    (m : machine) :
  names_missing_guard config m ev t = true ->
  exists name,
    guard t = Some name /\ name <> EmptyString /\
    lookup_guard config name = None /\
    applies m ev t = true /\
    candidate config ev t m = Some (Thrown (guard_not_found name), m, []).
Proof.
  unfold names_missing_guard, candidate, applies, bind, get. cbn.
  destruct (String.eqb (from t) "*" || String.eqb (from t) (state m));
    destruct (String.eqb (event t) (type ev)); cbn; try discriminate.
  destruct (guard t) as [name|]; [|discriminate].
  destruct (String.eqb_spec name EmptyString); cbn; [discriminate|].
  intros Hnone%bool_decide_eq_true. rewrite Hnone.
  exists name. repeat split; assumption.
Qed.

Lemma candidate_throws (ev : MachineEvent) (t : MachineTransition)
    (m : machine) :
  guard_throws config m ev t = true ->
  exists name handler error,
    guard t = Some name /\ name <> EmptyString /\
    lookup_guard config name = Some handler /\
    handler (params_of m ev) = Thrown error /\
    applies m ev t = true /\
    candidate config ev t m
    = Some (Thrown error, m, guard_call config m ev t).
Proof.
  unfold guard_throws, candidate, guard_call, applies, params_of, bind, get.
  cbn.
  destruct (String.eqb (from t) "*" || String.eqb (from t) (state m));
    destruct (String.eqb (event t) (type ev)); cbn; try discriminate.
  destruct (guard t) as [name|]; [|discriminate].
  destruct (String.eqb_spec name EmptyString); cbn; [discriminate|].
  destruct (lookup_guard config name) as [handler|] eqn:Hl; [|discriminate].
  destruct (handler _) as [verdict|error] eqn:Hcall; [discriminate|].
  intros _. exists name, handler, error. cbn.
  repeat split; first [assumption|reflexivity].
Qed.

(** A transition that the filtering does not get past makes the predicate
    throw, with the machine as it is. *)
Lemma candidate_stops (ev : MachineEvent) (t : MachineTransition)
    (m : machine) :
  stops_filtering config m ev t = true ->
  exists error,
    candidate config ev t m
    = Some (Thrown error, m, guard_call config m ev t).
Proof.
  unfold stops_filtering. intros [Ht|Ht]%orb_true_iff.
  - destruct (candidate_missing _ _ _ Ht)
      as (name & Hg & Hne & Hnone & Happ & Hc).
    exists (guard_not_found name). rewrite Hc. do 2 f_equal.
    unfold guard_call. rewrite Happ, Hg, Hnone.
    destruct (String.eqb name EmptyString); reflexivity.
  - destruct (candidate_throws _ _ _ Ht)
      as (name & handler & error & _ & _ & _ & _ & _ & Hc).
    exists error. exact Hc.
Qed.

Lemma filter_all_registered (ev : MachineEvent)
    (ts : list MachineTransition) (m : machine) :
  Forall (fun t => stops_filtering config m ev t = false) ts ->
  pistachio_filter (candidate config ev) ts m
  = Some (Returned (List.filter (passes config m ev) ts), m,
          guard_calls config m ev ts).
Proof.
  induction 1 as [|t rest Ht Hrest IH]; [reflexivity|].
  cbn [pistachio_filter]. unfold bind at 1.
  rewrite (candidate_verdict _ _ _ Ht). unfold bind at 1. rewrite IH.
  cbn. rewrite app_nil_r.
  destruct (passes config m ev t); reflexivity.
Qed.

Lemma filter_first_missing (ev : MachineEvent)
    (before : list MachineTransition) (t : MachineTransition)
    (after : list MachineTransition) (m : machine) :
  Forall (fun t => stops_filtering config m ev t = false) before ->
  names_missing_guard config m ev t = true ->
  exists name,
    guard t = Some name /\ name <> EmptyString /\
    lookup_guard config name = None /\
    pistachio_filter (candidate config ev) (before ++ t :: after) m
    = Some (Thrown (guard_not_found name), m, guard_calls config m ev before).
Proof.
  intros Hbefore Ht.
  destruct (candidate_missing _ _ _ Ht) as (name & Hg & Hne & Hnone & _ & Hc).
  exists name. repeat split; try assumption.
  induction Hbefore as [|t' rest Ht' Hrest IH].
  - cbn. unfold bind. rewrite Hc. reflexivity.
  - cbn [app pistachio_filter]. unfold bind at 1.
    rewrite (candidate_verdict _ _ _ Ht'). unfold bind at 1. rewrite IH.
    reflexivity.
Qed.

(** The filtering stops at the first transition it does not get past, with
    that transition's error, the machine as it is and the guard calls made
    so far. *)
Lemma filter_first_stop (ev : MachineEvent)
    (before : list MachineTransition) (t : MachineTransition)
    (after : list MachineTransition) (m : machine) :
  Forall (fun t => stops_filtering config m ev t = false) before ->
  stops_filtering config m ev t = true ->
  exists error,
    candidate config ev t m
    = Some (Thrown error, m, guard_call config m ev t) /\
    pistachio_filter (candidate config ev) (before ++ t :: after) m
    = Some (Thrown error, m,
            guard_calls config m ev before ++ guard_call config m ev t).
Proof.
  intros Hbefore Ht.
  destruct (candidate_stops _ _ _ Ht) as (error & Hc).
  exists error. split; [exact Hc|].
  induction Hbefore as [|t' rest Ht' Hrest IH].
  - cbn. unfold bind. rewrite Hc. reflexivity.
  - cbn [app pistachio_filter]. unfold bind at 1.
    rewrite (candidate_verdict _ _ _ Ht'). unfold bind at 1. rewrite IH.
    cbn [guard_calls flat_map]. rewrite app_assoc. reflexivity.
Qed.

(** Filtering either finds the first applicable transition whose guard is
    missing or throws, or none is. *)
Lemma first_missing_or_none (ev : MachineEvent)
    (ts : list MachineTransition) (m : machine) :
  Forall (fun t => stops_filtering config m ev t = false) ts \/
  exists before t after,
    ts = before ++ t :: after /\
    Forall (fun t => stops_filtering config m ev t = false) before /\
    stops_filtering config m ev t = true.
Proof.
  induction ts as [|t rest IH]; [left; constructor|].
  destruct (stops_filtering config m ev t) eqn:Ht.
  - right. exists [], t, rest. repeat split; [constructor|exact Ht].
  - destruct IH as [Hall|(before & t' & after & -> & Hb & Ht')].
    + left. constructor; assumption.
    + right. exists (t :: before), t', after.
      repeat split; [constructor; assumption|exact Ht'].
Qed.

Lemma guard_calls_are_guard_calls (ev : MachineEvent)
    (ts : list MachineTransition) (m : machine) :
  Forall (fun o => is_guard_call o = true) (guard_calls config m ev ts).
Proof.
  unfold guard_calls. induction ts as [|t rest IH]; [constructor|].
  cbn [flat_map]. apply Forall_app. split; [|exact IH].
  unfold guard_call. destruct (applies m ev t); [|constructor].
  destruct (guard t) as [name|]; [|constructor].
  destruct (String.eqb name EmptyString); [constructor|].
  destruct (lookup_guard config name); repeat constructor.
Qed.


End Filtering.

(** ** Computations *)

Section Computations.

Context {V : Type}.

Lemma bind_inv {A B} (c : @M V A) (f : A -> @M V B) m o m' tr :
  bind c f m = Some (o, m', tr) ->
  (exists e, c m = Some (Thrown e, m', tr) /\ o = Thrown e) \/
  (exists a m1 tr1 tr2,
      c m = Some (Returned a, m1, tr1) /\
      f a m1 = Some (o, m', tr2) /\ tr = tr1 ++ tr2).
Proof.
  unfold bind. destruct (c m) as [[[[a|e] m1] tr1]|]; [| |discriminate].
  - destruct (f a m1) as [[[o2 m2] tr2]|] eqn:Hf; [|discriminate].
    intros [= <- <- <-]. right. exists a, m1, tr1, tr2. auto.
  - intros [= <- <- <-]. left. exists e. auto.
Qed.

Lemma bind_returned {A B} (c : @M V A) (f : A -> @M V B) m a m1 tr1 :
  c m = Some (Returned a, m1, tr1) ->
  bind c f m
  = match f a m1 with
    | Some (o, m2, tr2) => Some (o, m2, tr1 ++ tr2)
    | None => None
    end.
Proof. unfold bind. intros ->. reflexivity. Qed.

Lemma bind_thrown {A B} (c : @M V A) (f : A -> @M V B) m e m1 tr1 :
  c m = Some (Thrown e, m1, tr1) ->
  bind c f m = Some (Thrown e, m1, tr1).
Proof. unfold bind. intros ->. reflexivity. Qed.

Lemma bind_get {B} (f : machine -> @M V B) m : bind get f m = f m m.
Proof. unfold bind, get. destruct (f m m) as [[[o m2] tr2]|]; reflexivity. Qed.

Lemma bind_ret {A B} (a : A) (f : A -> @M V B) m : bind (ret a) f m = f a m.
Proof. unfold bind, ret. destruct (f a m) as [[[o m2] tr2]|]; reflexivity. Qed.

Lemma bind_modify {B} (g : machine -> machine) (f : unit -> @M V B) m :
  bind (modify g) f m = f tt (g m).
Proof.
  unfold bind, modify. destruct (f tt (g m)) as [[[o m2] tr2]|]; reflexivity.
Qed.

Lemma bind_throw {A B} (e : string) (f : A -> @M V B) m :
  bind (throw e) f m = Some (Thrown e, m, []).
Proof. reflexivity. Qed.

Lemma bind_observe {B} (ob : observation) (f : unit -> @M V B) m :
  bind (observe ob) f m
  = match f tt m with
    | Some (o, m2, tr2) => Some (o, m2, ob :: tr2)
    | None => None
    end.
Proof. reflexivity. Qed.

Lemma bind_getContext {B} (f : mapping -> @M V B) m :
  bind getContext f m = f (context m) m.
Proof.
  unfold getContext, pistachio_freeze, bind, get, ret.
  destruct (f (context m) m) as [[[o m2] tr2]|]; reflexivity.
Qed.

Lemma bind_getProps {B} (f : mapping -> @M V B) m :
  bind getProps f m = f (props m) m.
Proof.
  unfold getProps, pistachio_freeze, bind, get, ret.
  destruct (f (props m) m) as [[[o m2] tr2]|]; reflexivity.
Qed.

Lemma bind_then_ret {A B} (c : @M V A) (g : A -> B) m o m' tr :
  bind c (fun a => ret (g a)) m = Some (o, m', tr) ->
  exists o', c m = Some (o', m', tr).
Proof.
  intros [(e & Hc & _)|(a & m1 & tr1 & tr2 & Hc & [= <- <- <-] & ->)]%bind_inv.
  - eauto.
  - rewrite app_nil_r. eauto.
Qed.

Lemma undisturbed_refl (m : @machine V) : undisturbed m m [].
Proof. repeat split. constructor. Qed.

Lemma undisturbed_trans (m m1 m2 : @machine V) tr1 tr2 :
  undisturbed m m1 tr1 -> undisturbed m1 m2 tr2 ->
  undisturbed m m2 (tr1 ++ tr2).
Proof.
  intros (Hs1 & Hc1 & Hp1 & Ht1) (Hs2 & Hc2 & Hp2 & Ht2).
  repeat split; try congruence. apply Forall_app. split; assumption.
Qed.

Lemma undisturbed_from (m m1 m' : @machine V) tr :
  state m1 = state m -> context m1 = context m ->
  processing m1 = processing m ->
  undisturbed m1 m' tr -> undisturbed m m' tr.
Proof.
  intros Hs Hc Hp (Hs' & Hc' & Hp' & Ht). repeat split; congruence.
Qed.

End Computations.

(** ** What callbacks cannot do while a dispatch is in progress *)

Section DuringDispatch.

Context {V : Type}.
Variable config : @MachineConfig V.
Variable code : listener_id -> @listener V.
Variable bound : nat.
Variable run : forall R : Type, @prog V R -> @M V R.

Hypothesis run_undisturbed :
  forall R (p : @prog V R) m o m' tr,
    processing m = true -> run R p m = Some (o, m', tr) ->
    undisturbed m m' tr.

Lemma send_dropped (ev : MachineEvent) (m : machine) :
  running m = false \/ processing m = true ->
  send config code bound run ev m = Some (Returned tt, m, []).
Proof.
  unfold send, bind, get. cbn.
  intros [->| ->]; cbn; [reflexivity|].
  destruct (running m); reflexivity.
Qed.

Lemma call_listener_undisturbed l m o m' tr :
  processing m = true ->
  call_listener code run l m = Some (o, m', tr) ->
  undisturbed m m' tr.
Proof.
  intros Hp. unfold call_listener.
  rewrite bind_get, bind_getContext, bind_getProps, bind_observe.
  destruct (run unit _ m) as [[[o2 m2] tr2]|] eqn:Hrun; [|discriminate].
  intros [= <- <- <-].
  destruct (run_undisturbed _ _ _ _ _ _ Hp Hrun) as (Hs & Hc & Hq & Ht).
  repeat split; try assumption. constructor; [split; reflexivity|exact Ht].
Qed.

Lemma notify_from_undisturbed fuel : forall i m o m' tr,
  processing m = true ->
  notify_from code run fuel i m = Some (o, m', tr) ->
  undisturbed m m' tr.
Proof.
  induction fuel as [|fuel IH]; intros i m o m' tr Hp; [discriminate|].
  cbn [notify_from]. rewrite bind_get.
  destruct (listeners m !! i) as [[l|]|].
  - intros [(e & Hc & _)|(a & m1 & tr1 & tr2 & Hc & Hrest & ->)]%bind_inv.
    + exfalso. unfold try_catch in Hc.
      destruct (call_listener code run l m) as [[[[u|e'] m2] tr2]|];
        try discriminate.
    + assert (undisturbed m m1 tr1) as H1.
      { unfold try_catch in Hc.
        destruct (call_listener code run l m) as [[[[u|e'] m2] tr2']|]
          eqn:Hcall; try discriminate.
        - injection Hc as <- <- <-.
          eapply call_listener_undisturbed; eassumption.
        - cbn in Hc. injection Hc as <- <- <-.
          eapply undisturbed_trans;
            [eapply call_listener_undisturbed; eassumption|].
          repeat split. repeat constructor. }
      eapply undisturbed_trans; [exact H1|].
      eapply IH; [|exact Hrest]. destruct H1 as (_ & _ & -> & _). exact Hp.
  - intros Hn. eapply IH; eassumption.
  - intros [= <- <- <-]. apply undisturbed_refl.
Qed.

Lemma subscribe_undisturbed l options m o m' tr :
  processing m = true ->
  subscribe code run l options m = Some (o, m', tr) ->
  undisturbed m m' tr.
Proof.
  intros Hp. unfold subscribe. rewrite bind_modify.
  destruct (match options with Some o0 => default true (immediate o0)
                             | None => true end).
  - intros Hcall.
    apply call_listener_undisturbed in Hcall; [|exact Hp].
    eapply undisturbed_from; [| | |exact Hcall]; reflexivity.
  - intros [= <- <- <-]. repeat split. constructor.
Qed.

Lemma syncProps_undisturbed newProps m o m' tr :
  processing m = true ->
  syncProps code bound run newProps m = Some (o, m', tr) ->
  undisturbed m m' tr.
Proof.
  intros Hp. unfold syncProps, notify. rewrite bind_modify.
  intros Hn. apply notify_from_undisturbed in Hn; [|exact Hp].
  eapply undisturbed_from; [| | |exact Hn]; reflexivity.
Qed.

Lemma perform_undisturbed c m o m' tr :
  processing m = true ->
  perform config code bound run c m = Some (o, m', tr) ->
  undisturbed m m' tr.
Proof.
  intros Hp.
  destruct c; cbn [perform]; intros [o' Hop]%bind_then_ret; revert Hop.
  - unfold start. rewrite bind_get.
    destruct (running m); intros [= <- <- <-]; repeat split; constructor.
  - unfold stop. rewrite bind_get.
    destruct (running m); intros [= <- <- <-]; repeat split; constructor.
  - rewrite (send_dropped ev m (or_intror Hp)).
    intros [= <- <- <-]. apply undisturbed_refl.
  - apply subscribe_undisturbed, Hp.
  - unfold unsubscribe. rewrite bind_get, bind_modify.
    intros [= <- <- <-]. repeat split. constructor.
  - unfold matches. rewrite bind_get.
    intros [= <- <- <-]. apply undisturbed_refl.
  - apply syncProps_undisturbed, Hp.
  - unfold getState. rewrite bind_get.
    intros [= <- <- <-]. apply undisturbed_refl.
  - unfold getContext. rewrite bind_get.
    intros [= <- <- <-]. apply undisturbed_refl.
  - unfold getProps. rewrite bind_get.
    intros [= <- <- <-]. apply undisturbed_refl.
Qed.

End DuringDispatch.

Section Interpreter.

Context {V : Type}.
Variable config : @MachineConfig V.
Variable code : listener_id -> @listener V.

(** While the latch is set, whatever a callback does leaves the state, the
    context and the latch as they are, and starts no other dispatch. *)
Lemma run_undisturbed n : forall R (p : @prog V R) m o m' tr,
  processing m = true ->
  run config code n R p m = Some (o, m', tr) ->
  undisturbed m m' tr.
Proof.
  induction n as [|n IH]; intros R p m o m' tr Hp; [discriminate|].
  destruct p as [r|e|c k]; cbn [run].
  - intros [= <- <- <-]. apply undisturbed_refl.
  - intros [= <- <- <-]. apply undisturbed_refl.
  - intros [(e & Hc & _)|(a & m1 & tr1 & tr2 & Hc & Hk & ->)]%bind_inv.
    + exfalso. unfold as_reply, try_catch in Hc.
      destruct (perform config code n (run config code n) c m)
        as [[[[u|e'] m2] tr0]|]; discriminate.
    + assert (undisturbed m m1 tr1) as H1.
      { unfold as_reply, try_catch in Hc.
        destruct (perform config code n (run config code n) c m)
          as [[[[u|e'] m2] tr0]|] eqn:Hperf; try discriminate.
        - injection Hc as <- <- <-.
          eapply perform_undisturbed; [exact IH|exact Hp|exact Hperf].
        - cbn in Hc. injection Hc as <- <- <-. rewrite app_nil_r.
          eapply perform_undisturbed; [exact IH|exact Hp|exact Hperf]. }
      eapply undisturbed_trans; [exact H1|].
      eapply IH; [|exact Hk]. destruct H1 as (_ & _ & -> & _). exact Hp.
Qed.

End Interpreter.

(** ** One dispatch *)

Section Dispatch.

Context {V : Type}.
Variable config : @MachineConfig V.
Variable code : listener_id -> @listener V.

Local Abbreviation run_at n := (run config code n).
Local Abbreviation send_at n := (send config code n (run config code n)).
Local Abbreviation notify_at n := (notify code n (run config code n)).
Local Abbreviation action_at n := (run_action config (run config code n)).
Local Abbreviation apply_at n :=
  (apply_transition config code n (run config code n)).

Lemma notify_undisturbed n m o m' tr :
  processing m = true ->
  notify_at n m = Some (o, m', tr) ->
  undisturbed m m' tr.
Proof.
  intros Hp Hn. unfold notify in Hn.
  eapply notify_from_undisturbed; [|exact Hp|exact Hn].
  apply run_undisturbed.
Qed.

Lemma run_action_none n ev w m :
  action w = None \/ action w = Some EmptyString ->
  action_at n ev w m = Some (Returned tt, m, []).
Proof. unfold run_action. intros [->| ->]; reflexivity. Qed.

Lemma run_action_missing n ev w name m :
  action w = Some name -> name <> EmptyString ->
  lookup_action config name = None ->
  action_at n ev w m = Some (Thrown (action_not_found name), m, []).
Proof.
  unfold run_action. intros -> Hne ->.
  destruct (String.eqb_spec name EmptyString); [contradiction|reflexivity].
Qed.

Lemma run_action_found n ev w name handler m :
  action w = Some name -> name <> EmptyString ->
  lookup_action config name = Some handler ->
  action_at n ev w m
  = match run_at n (option mapping) (handler (params_of m ev)) m with
    | Some (Returned (Some partial), m1, tr1) =>
        Some (Returned tt, set_context (spread2 (context m1) partial) m1,
              ActionCalled name (params_of m ev) :: tr1)
    | Some (Returned None, m1, tr1) =>
        Some (Returned tt, m1, ActionCalled name (params_of m ev) :: tr1)
    | Some (Thrown e, m1, tr1) =>
        Some (Thrown e, m1, ActionCalled name (params_of m ev) :: tr1)
    | None => None
    end.
Proof.
  unfold run_action. intros -> Hne ->.
  destruct (String.eqb_spec name EmptyString); [contradiction|].
  rewrite bind_getContext, bind_getProps, bind_observe.
  unfold params_of, bind.
  destruct (run_at n (option mapping) _ m) as [[[[[partial|]|e] m1] tr1]|];
    cbn; rewrite ?app_nil_r; reflexivity.
Qed.

(** What the action block leaves: the state and the latch; it calls no
    guard, and the only action it calls is the transition's. *)
Lemma run_action_inv n ev w m o m' tr :
  processing m = true ->
  action_at n ev w m = Some (o, m', tr) ->
  state m' = state m /\ processing m' = true /\
  Forall (fun ob => is_guard_call ob = false) tr /\
  (forall name p, In (ActionCalled name p) tr ->
     action w = Some name /\ name <> EmptyString /\ p = params_of m ev /\
     is_Some (lookup_action config name)).
Proof.
  intros Hp.
  destruct (action w) as [name|] eqn:Hw.
  2:{ rewrite run_action_none by auto. intros [= <- <- <-].
      refine (conj _ (conj _ (conj _ _)));
        [reflexivity|assumption|constructor|intros ? ? []]. }
  destruct (String.eqb_spec name EmptyString) as [->|Hne].
  { rewrite run_action_none by auto. intros [= <- <- <-].
    refine (conj _ (conj _ (conj _ _)));
      [reflexivity|assumption|constructor|intros ? ? []]. }
  destruct (lookup_action config name) as [handler|] eqn:Hl.
  2:{ rewrite (run_action_missing _ _ _ name) by assumption.
      intros [= <- <- <-].
      refine (conj _ (conj _ (conj _ _)));
        [reflexivity|assumption|constructor|intros ? ? []]. }
  rewrite (run_action_found _ _ _ name handler) by assumption.
  destruct (run_at n (option mapping) _ m) as [[[r m1] tr1]|] eqn:Hrun;
    [|discriminate].
  destruct (run_undisturbed _ _ _ _ _ _ _ _ _ Hp Hrun) as (Hs & Hc & Hq & Ht).
  assert (Forall (fun ob => is_guard_call ob = false)
                 (ActionCalled name (params_of m ev) :: tr1)) as Hguards.
  { constructor; [reflexivity|].
    eapply Forall_impl; [exact Ht|]. intros ob [Hg _]. exact Hg. }
  assert (forall name' p,
             In (ActionCalled name' p)
                (ActionCalled name (params_of m ev) :: tr1) ->
             Some name = Some name' /\ name' <> EmptyString /\
             p = params_of m ev /\
             is_Some (lookup_action config name')) as Hactions.
  { intros name' p [[= <- <-]|Hin].
    - repeat split; try assumption. rewrite Hl. eauto.
    - exfalso. rewrite Forall_forall in Ht.
      destruct (Ht _ (proj2 (list_elem_of_In _ _) Hin)) as [_ Ha].
      discriminate. }
  destruct r as [[partial|]|e]; intros [= <- <- <-];
    (refine (conj _ (conj _ (conj _ _)));
     [cbn; congruence|cbn; congruence|exact Hguards|exact Hactions]).
Qed.

Lemma apply_transition_inv n ev w m o m' tr :
  processing m = true ->
  apply_at n ev w m = Some (o, m', tr) ->
  state m' = to w /\ processing m' = true /\
  Forall (fun ob => is_guard_call ob = false) tr /\
  (forall name p, In (ActionCalled name p) tr ->
     action w = Some name /\ name <> EmptyString /\
     p = params_of (set_state (to w) m) ev).
Proof.
  intros Hp. unfold apply_transition. rewrite bind_modify.
  intros [(e & Hact & ->)|(u & m1 & tr1 & tr2 & Hact & Hn & ->)]%bind_inv.
  - destruct (run_action_inv _ _ _ (set_state (to w) m) _ _ _ Hp Hact)
      as (Hs & Hq & Hg & Ha). cbn in Hs.
    refine (conj _ (conj _ (conj _ _))); [exact Hs|exact Hq|exact Hg|].
    intros name p Hin. destruct (Ha name p Hin) as (? & ? & ? & _). auto.
  - destruct (run_action_inv _ _ _ (set_state (to w) m) _ _ _ Hp Hact)
      as (Hs & Hq & Hg & Ha). cbn in Hs.
    destruct (notify_undisturbed _ _ _ _ _ Hq Hn) as (Hs' & _ & Hq' & Ht).
    refine (conj _ (conj _ (conj _ _))); [congruence|congruence| |].
    + apply Forall_app. split; [exact Hg|].
      eapply Forall_impl; [exact Ht|]. intros ob [H _]. exact H.
    + intros name p [Hin|Hin]%in_app_or.
      * destruct (Ha name p Hin) as (? & ? & ? & _). auto.
      * exfalso. rewrite Forall_forall in Ht.
        destruct (Ht _ (proj2 (list_elem_of_In _ _) Hin)) as [_ Hx].
        discriminate.
Qed.

Lemma unlatch_latch (m : @machine V) :
  processing m = false -> set_processing false (set_processing true m) = m.
Proof. destruct m; cbn. intros ->. reflexivity. Qed.

Lemma send_dispatches n ev m :
  running m = true -> processing m = false ->
  send_at n ev m
  = try_finally (dispatch config code n (run_at n) ev)
                (set_processing false) (set_processing true m).
Proof.
  intros Hr Hp. unfold send. rewrite bind_get, Hr, Hp. cbn [negb].
  rewrite bind_modify. reflexivity.
Qed.

Lemma sort_first_nonempty {A} (l : list A) (cmp : A -> A -> Z) (w : A) :
  pistachio_sort l cmp !! 0%nat = Some w -> l <> [].
Proof. intros H ->. discriminate. Qed.

Lemma dispatch_applies n ev found w m m1 tr1 :
  pistachio_filter (candidate config ev) (transitions config) m
  = Some (Returned found, m1, tr1) ->
  pistachio_sort found by_priority !! 0%nat = Some w ->
  dispatch config code n (run_at n) ev m
  = match apply_at n ev w m1 with
    | Some (o, m2, tr2) => Some (o, m2, tr1 ++ tr2)
    | None => None
    end.
Proof.
  intros Hf Hw. unfold dispatch. rewrite (bind_returned _ _ _ _ _ _ Hf).
  destruct found as [|t rest]; [discriminate|].
  cbn [length Nat.eqb]. rewrite Hw. reflexivity.
Qed.

Lemma dispatch_nothing n ev m m1 tr1 :
  pistachio_filter (candidate config ev) (transitions config) m
  = Some (Returned [], m1, tr1) ->
  dispatch config code n (run_at n) ev m = Some (Returned tt, m1, tr1).
Proof.
  intros Hf. unfold dispatch. rewrite (bind_returned _ _ _ _ _ _ Hf).
  cbn. rewrite app_nil_r. reflexivity.
Qed.

Lemma dispatch_fails n ev e m m1 tr1 :
  pistachio_filter (candidate config ev) (transitions config) m
  = Some (Thrown e, m1, tr1) ->
  dispatch config code n (run_at n) ev m = Some (Thrown e, m1, tr1).
Proof. intros Hf. unfold dispatch. apply bind_thrown, Hf. Qed.

(** What filtering returns when it returns: the machine is untouched, the
    survivors are the passing transitions in table order, only guards were
    called, and no applicable transition named a guard that is missing or
    throws. *)
Lemma filter_returned ev found m m1 tr1 :
  pistachio_filter (candidate config ev) (transitions config) m
  = Some (Returned found, m1, tr1) ->
  m1 = m /\ found = candidates config m ev /\
  tr1 = guard_calls config m ev (transitions config) /\
  Forall (fun t => stops_filtering config m ev t = false)
         (transitions config).
Proof.
  intros Hf.
  destruct (first_missing_or_none config ev (transitions config) m)
    as [Hall|(before & t & after & Hsplit & Hb & Ht)].
  - rewrite (filter_all_registered _ _ _ _ Hall) in Hf.
    injection Hf as <- <- <-. auto.
  - destruct (filter_first_stop config ev before t after m Hb Ht)
      as (error & _ & Hthrown).
    rewrite <- Hsplit, Hf in Hthrown. discriminate.
Qed.

Lemma filter_split {A} (f : A -> bool) (l b : list A) (w : A) (a : list A) :
  List.filter f l = b ++ w :: a ->
  exists lb la,
    l = lb ++ w :: la /\ List.filter f lb = b /\ List.filter f la = a /\
    f w = true.
Proof.
  revert b. induction l as [|x l IH]; intros b Hl.
  - destruct b; discriminate.
  - cbn in Hl. destruct (f x) eqn:Hx.
    + destruct b as [|y b]; cbn in Hl.
      * injection Hl as -> Hl. exists [], l. cbn. auto.
      * injection Hl as -> Hl.
        destruct (IH b Hl) as (lb & la & -> & Hb & Ha & Hw).
        exists (y :: lb), la. cbn. rewrite Hx, Hb. auto.
    + destruct (IH b Hl) as (lb & la & -> & Hb & Ha & Hw).
      exists (x :: lb), la. cbn. rewrite Hx. auto.
Qed.

End Dispatch.

(** ** Listeners *)

Section Listeners.

Context {V : Type}.
Variable code : listener_id -> @listener V.

Lemma call_listener_eq (run : forall R : Type, @prog V R -> @M V R) l m :
  call_listener code run l m
  = match run unit (code l (state m) (context m) (props m)) m with
    | Some (o, m1, tr1) =>
        Some (o, m1, ListenerCalled l (state m) (context m) (props m) :: tr1)
    | None => None
    end.
Proof.
  unfold call_listener.
  rewrite bind_get, bind_getContext, bind_getProps, bind_observe.
  reflexivity.
Qed.

(** One turn of the loop of [notify], on a listener that returns and on one
    that throws: the loop goes on with the next entry either way, after
    writing the error to [console.error] in the second case. *)
Lemma notify_from_returned run fuel i m l m1 tr1 :
  listeners m !! i = Some (Some l) ->
  call_listener code run l m = Some (Returned tt, m1, tr1) ->
  notify_from code run (S fuel) i m
  = match notify_from code run fuel (S i) m1 with
    | Some (o, m2, tr2) => Some (o, m2, tr1 ++ tr2)
    | None => None
    end.
Proof.
  intros Hi Hcall. cbn [notify_from]. rewrite bind_get, Hi.
  unfold bind, try_catch. rewrite Hcall. reflexivity.
Qed.

Lemma notify_from_thrown run fuel i m l e m1 tr1 :
  listeners m !! i = Some (Some l) ->
  call_listener code run l m = Some (Thrown e, m1, tr1) ->
  notify_from code run (S fuel) i m
  = match notify_from code run fuel (S i) m1 with
    | Some (o, m2, tr2) => Some (o, m2, (tr1 ++ [ConsoleError e]) ++ tr2)
    | None => None
    end.
Proof.
  intros Hi Hcall. cbn [notify_from]. rewrite bind_get, Hi.
  unfold bind, try_catch. rewrite Hcall. reflexivity.
Qed.

Lemma notify_from_hole run fuel i m :
  listeners m !! i = Some None ->
  notify_from code run (S fuel) i m = notify_from code run fuel (S i) m.
Proof. intros Hi. cbn [notify_from]. rewrite bind_get, Hi. reflexivity. Qed.

Lemma notify_from_end run fuel i m :
  listeners m !! i = None ->
  notify_from code run (S fuel) i m = Some (Returned tt, m, []).
Proof. intros Hi. cbn [notify_from]. rewrite bind_get, Hi. reflexivity. Qed.

(** The loop never throws. *)
Lemma notify_from_never_throws run fuel : forall i m o m' tr,
  notify_from code run fuel i m = Some (o, m', tr) -> o = Returned tt.
Proof.
  induction fuel as [|fuel IH]; intros i m o m' tr; [discriminate|].
  destruct (listeners m !! i) as [[l|]|] eqn:Hi.
  - destruct (call_listener code run l m) as [[[[[]|e] m1] tr1]|] eqn:Hcall.
    + rewrite (notify_from_returned _ _ _ _ _ _ _ Hi Hcall).
      destruct (notify_from code run fuel (S i) m1) as [[[o2 m2] tr2]|]
        eqn:Hn; [|discriminate].
      intros [= <- <- <-]. eapply IH, Hn.
    + rewrite (notify_from_thrown _ _ _ _ _ _ _ _ Hi Hcall).
      destruct (notify_from code run fuel (S i) m1) as [[[o2 m2] tr2]|]
        eqn:Hn; [|discriminate].
      intros [= <- <- <-]. eapply IH, Hn.
    + cbn [notify_from]. rewrite bind_get, Hi. unfold bind, try_catch.
      rewrite Hcall. discriminate.
  - rewrite (notify_from_hole _ _ _ _ Hi). apply IH.
  - rewrite (notify_from_end _ _ _ _ Hi). intros [= <- <- <-]. reflexivity.
Qed.

End Listeners.

Section DirectListeners.

Context {V : Type}.
Variable config : @MachineConfig V.
Variable code : listener_id -> @listener V.

Local Abbreviation run_at n := (run config code n).

Lemma registered_cons_some l (ls : list (option listener_id)) :
  registered (Some l :: ls) = l :: registered ls.
Proof. reflexivity. Qed.

Lemma registered_cons_none (ls : list (option listener_id)) :
  registered (None :: ls) = registered ls.
Proof. reflexivity. Qed.

Lemma run_direct n R (p : @prog V R) m :
  direct p ->
  run_at (S n) R p m
  = Some (match p with Throw e => Thrown e | Ret r => Returned r
                     | Do _ _ => Thrown EmptyString end, m, []).
Proof. destruct p; cbn; [reflexivity|reflexivity|contradiction]. Qed.

Lemma call_listener_direct n l m :
  direct (code l (state m) (context m) (props m)) ->
  call_listener code (run_at (S n)) l m
  = Some (match code l (state m) (context m) (props m) with
          | Throw e => Thrown e
          | _ => Returned tt
          end, m, [ListenerCalled l (state m) (context m) (props m)]).
Proof.
  intros Hd. rewrite call_listener_eq, (run_direct _ _ _ _ Hd).
  destruct (code l (state m) (context m) (props m)) as [[]|e|c k];
    [reflexivity|reflexivity|contradiction].
Qed.

(** A pass over listeners that make no call themselves: the machine is left
    as it is and every registered listener is called, in order, with the
    same state, context and props, whoever throws. *)
Lemma notify_from_direct n fuel : forall i m,
  Forall (fun l => direct (code l (state m) (context m) (props m)))
         (registered (listeners m)) ->
  length (listeners m) - i < fuel ->
  notify_from code (run_at (S n)) fuel i m
  = Some (Returned tt, m,
          flat_map (report code m) (registered (drop i (listeners m)))).
Proof.
  induction fuel as [|fuel IH]; intros i m Hd Hfuel; [lia|].
  destruct (listeners m !! i) as [[l|]|] eqn:Hi.
  - assert (direct (code l (state m) (context m) (props m))) as Hl.
    { rewrite Forall_forall in Hd. apply Hd. unfold registered.
      apply list_elem_of_omap. exists (Some l). split; [|reflexivity].
      eapply list_elem_of_lookup_2, Hi. }
    pose proof (lookup_lt_Some _ _ _ Hi) as Hlt.
    rewrite (drop_S _ _ _ Hi), registered_cons_some. cbn [flat_map].
    unfold report at 1.
    pose proof (call_listener_direct n l m Hl) as Hcall.
    destruct (code l (state m) (context m) (props m)) as [[]|e|c k];
      [| |contradiction].
    + rewrite (notify_from_returned _ _ _ _ _ _ _ _ Hi Hcall).
      rewrite (IH (S i) m Hd) by lia. reflexivity.
    + rewrite (notify_from_thrown _ _ _ _ _ _ _ _ _ Hi Hcall).
      rewrite (IH (S i) m Hd) by lia. reflexivity.
  - pose proof (lookup_lt_Some _ _ _ Hi) as Hlt.
    rewrite (notify_from_hole _ _ _ _ _ Hi), (drop_S _ _ _ Hi).
    rewrite registered_cons_none. apply IH; [exact Hd|lia].
  - rewrite (notify_from_end _ _ _ _ _ Hi).
    rewrite drop_ge by (apply lookup_ge_None; exact Hi). reflexivity.
Qed.

Lemma notify_direct n bound m :
  Forall (fun l => direct (code l (state m) (context m) (props m)))
         (registered (listeners m)) ->
  length (listeners m) < bound ->
  notify code bound (run_at (S n)) m
  = Some (Returned tt, m, notification code m).
Proof.
  intros Hd Hb. unfold notify, notification.
  rewrite (notify_from_direct n bound 0 m Hd) by lia. reflexivity.
Qed.

(** With callbacks that make no call themselves, and a bound above the
    number of entries of the listener [Set], applying a transition comes
    back. *)
Lemma apply_transition_direct n ev w m :
  (forall name handler,
      lookup_action config name = Some handler ->
      direct (handler (params_of m ev))) ->
  Forall (fun l => forall s c p, direct (code l s c p))
         (registered (listeners m)) ->
  length (listeners m) < S n ->
  exists o m' tr,
    apply_transition config code (S n) (run_at (S n)) ev w m
    = Some (o, m', tr).
Proof.
  intros Hactions Hlisteners Hbound.
  assert (forall m', listeners m' = listeners m ->
            exists o tr, notify code (S n) (run_at (S n)) m'
                         = Some (o, m', tr)) as Hnotify.
  { intros m' Hsame. eexists _, _. apply notify_direct.
    - rewrite Hsame. eapply Forall_impl; [exact Hlisteners|].
      intros l Hl. apply Hl.
    - rewrite Hsame. exact Hbound. }
  unfold apply_transition. rewrite bind_modify.
  destruct (action w) as [name|] eqn:Hw.
  2:{ rewrite (bind_returned _ _ _ _ _ _
                 (run_action_none config code (S n) ev w _ (or_introl Hw))).
      destruct (Hnotify (set_state (to w) m) eq_refl) as (o & tr & ->).
      eauto. }
  destruct (String.eqb_spec name EmptyString) as [->|Hne].
  { rewrite (bind_returned _ _ _ _ _ _
               (run_action_none config code (S n) ev w _ (or_intror Hw))).
    destruct (Hnotify (set_state (to w) m) eq_refl) as (o & tr & ->).
    eauto. }
  destruct (lookup_action config name) as [handler|] eqn:Hl.
  2:{ rewrite (bind_thrown _ _ _ _ _ _
                 (run_action_missing config code (S n) ev w name _
                    Hw Hne Hl)).
      eauto. }
  pose proof (run_action_found config code (S n) ev w name handler
                (set_state (to w) m) Hw Hne Hl) as Hact.
  change (params_of (set_state (to w) m) ev) with (params_of m ev) in Hact.
  pose proof (Hactions name handler Hl) as Hd.
  rewrite (run_direct n _ _ _ Hd) in Hact.
  destruct (handler (params_of m ev)) as [[partial|]|e|c k].
  - rewrite (bind_returned _ _ _ _ _ _ Hact).
    destruct (Hnotify (set_context
                         (spread2 (context (set_state (to w) m)) partial)
                         (set_state (to w) m)) eq_refl) as (o & tr & ->).
    eauto.
  - rewrite (bind_returned _ _ _ _ _ _ Hact).
    destruct (Hnotify (set_state (to w) m) eq_refl) as (o & tr & ->).
    eauto.
  - rewrite (bind_thrown _ _ _ _ _ _ Hact). eauto.
  - exfalso. exact Hd.
Qed.

End DirectListeners.

(** ** The claims about [send] *)

Section Send.

Context {V : Type}.
Variable config : @MachineConfig V.
Variable code : listener_id -> @listener V.

Local Abbreviation run_at n := (run config code n).
Local Abbreviation send_at n := (send config code n (run config code n)).
Local Abbreviation notify_at n := (notify code n (run config code n)).
Local Abbreviation action_at n := (run_action config (run config code n)).
Local Abbreviation apply_at n :=
  (apply_transition config code n (run config code n)).
Local Abbreviation filtering ev :=
  (pistachio_filter (candidate config ev) (transitions config)).



(** C1.  On a running machine with no dispatch in progress, when the
    filtering of [send] leaves at least one transition, the transition that
    [send] applies is a passing transition [w] of the table such that every
    passing transition before it in the table has a strictly lower priority
    and every passing transition after it has a priority at most equal
    (absent priorities counting as 0): the first of the highest priority.
    Whenever the rest of the dispatch for [w] (its action and the
    notification) comes back, [send] comes back with the same outcome and
    the state is [w]'s [to]; and it does come back when the callbacks make
    no call themselves and the bound is above the number of entries of the
    listener [Set]. *)
Theorem send_applies_first_of_highest_priority
    (n : nat) (ev : MachineEvent) (m : machine)
    (found : list MachineTransition) (m1 : machine) (tr1 : trace) :
  running m = true ->
  processing m = false ->
  filtering ev (set_processing true m) = Some (Returned found, m1, tr1) ->
  found <> [] ->
  exists earlier w later,
    transitions config = earlier ++ w :: later /\
    passes config m ev w = true /\
    Forall (fun t => passes config m ev t = true -> (prio t < prio w)%Z)
           earlier /\
    Forall (fun t => passes config m ev t = true -> (prio t <= prio w)%Z)
           later /\
    pistachio_sort found by_priority !! 0%nat = Some w /\
    (forall o m2 tr2,
        apply_at n ev w (set_processing true m) = Some (o, m2, tr2) ->
        send_at n ev m = Some (o, set_processing false m2, tr1 ++ tr2) /\
        state (set_processing false m2) = to w) /\
    ((forall name handler,
         lookup_action config name = Some handler ->
         direct (handler (params_of m ev))) ->
     Forall (fun l => forall s c p, direct (code l s c p))
            (registered (listeners m)) ->
     length (listeners m) < n ->
     exists o m2 tr2,
       apply_at n ev w (set_processing true m) = Some (o, m2, tr2)).
Proof.
  intros Hr Hp Hf Hne.
  destruct (filter_returned config _ _ _ _ _ Hf) as (-> & Hfound & _ & _).
  destruct (sort_by_priority_first found Hne)
    as (before & w & after & Hsplit & Hfirst & Hlt & Hle).
  rewrite Hfound in Hsplit. unfold candidates in Hsplit.
  destruct (filter_split _ _ _ _ _ Hsplit)
    as (earlier & later & Htable & Hb & Ha & Hw).
  exists earlier, w, later.
  split; [exact Htable|]. split; [exact Hw|].
  split; [|split; [|split; [exact Hfirst|split]]].
  - apply List.Forall_forall. intros t Hin Ht.
    rewrite List.Forall_forall in Hlt. apply Hlt.
    rewrite <- Hb. apply List.filter_In. split; assumption.
  - apply List.Forall_forall. intros t Hin Ht.
    rewrite List.Forall_forall in Hle. apply Hle.
    rewrite <- Ha. apply List.filter_In. split; assumption.
  - intros o m2 tr2 Happly.
    rewrite (send_dispatches config code n ev m Hr Hp). unfold try_finally.
    rewrite (dispatch_applies config code n ev found w _ _ _ Hf Hfirst).
    rewrite Happly. split; [reflexivity|].
    apply apply_transition_inv in Happly as (Hs & _); [|reflexivity].
    exact Hs.
  - intros Hactions Hlisteners Hbound.
    destruct n as [|n]; [lia|].
    apply (apply_transition_direct config code n ev w
             (set_processing true m) Hactions Hlisteners Hbound).
Qed.



End Send.

(** ** The claims about [send], continued *)

Section SendWithCallbacks.

Context {V : Type}.
Variable config : @MachineConfig V.
Variable code : listener_id -> @listener V.

Local Abbreviation run_at n := (run config code n).
Local Abbreviation send_at n := (send config code n (run config code n)).
Local Abbreviation notify_at n := (notify code n (run config code n)).
Local Abbreviation action_at n := (run_action config (run config code n)).
Local Abbreviation apply_at n :=
  (apply_transition config code n (run config code n)).
Local Abbreviation filtering ev :=
  (pistachio_filter (candidate config ev) (transitions config)).

(** A dispatch whose winner's action handler returns. *)
Lemma send_with_action
    (n : nat) (ev : MachineEvent) (m : machine)
    (found : list MachineTransition) (m1 : machine) (tr1 : trace)
    (w : MachineTransition) (name : string) (handler : action_handler)
    (result : option mapping) (m2 : machine) (tr2 : trace)
    (o3 : outcome unit) (m3 : machine) (tr3 : trace) :
  running m = true ->
  processing m = false ->
  filtering ev (set_processing true m) = Some (Returned found, m1, tr1) ->
  pistachio_sort found by_priority !! 0%nat = Some w ->
  action w = Some name ->
  name <> EmptyString ->
  lookup_action config name = Some handler ->
  run_at n (option mapping) (handler (params_of m ev))
         (set_state (to w) (set_processing true m))
  = Some (Returned result, m2, tr2) ->
  notify_at n
    match result with
    | Some partial => set_context (spread2 (context m2) partial) m2
    | None => m2
    end
  = Some (o3, m3, tr3) ->
  send_at n ev m
  = Some (Returned tt, set_processing false m3,
          tr1 ++ ActionCalled name (params_of m ev) :: tr2 ++ tr3) /\
  state m3 = to w /\
  context m3 = match result with
               | Some partial => pistachio_merge (context m) partial
               | None => context m
               end.
Proof.
  intros Hr Hp Hf Hw Ha Hne Hl Hrun Hn.
  destruct (filter_returned config _ _ _ _ _ Hf) as (-> & _ & _ & _).
  pose proof (run_undisturbed config code n _ _
                (set_state (to w) (set_processing true m)) _ _ _
                eq_refl Hrun)
    as (Hs2 & Hc2 & Hp2 & _). cbn in Hs2, Hc2, Hp2.
  assert (processing
            match result with
            | Some partial => set_context (spread2 (context m2) partial) m2
            | None => m2
            end = true) as Hp3 by (destruct result; exact Hp2).
  pose proof (notify_undisturbed config code n _ _ _ _ Hp3 Hn)
    as (Hs3 & Hc3 & _ & _).
  assert (o3 = Returned tt) as ->
    by (eapply notify_from_never_throws; exact Hn).
  split; [|split].
  - rewrite (send_dispatches config code n ev m Hr Hp). unfold try_finally.
    rewrite (dispatch_applies config code n ev found w _ _ _ Hf Hw).
    unfold apply_transition. rewrite bind_modify.
    pose proof (run_action_found config code n ev w name handler
                  (set_state (to w) (set_processing true m)) Ha Hne Hl)
      as Hact.
    change (params_of (set_state (to w) (set_processing true m)) ev)
      with (params_of m ev) in Hact.
    rewrite Hrun in Hact.
    destruct result as [partial|];
      rewrite (bind_returned _ _ _ _ _ _ Hact), Hn; reflexivity.
  - rewrite Hs3. destruct result; exact Hs2.
  - rewrite Hc3. destruct result; cbn; [rewrite Hc2; reflexivity|exact Hc2].
Qed.

Lemma merge_lookup (c partial : @mapping V) (key : string) :
  pistachio_merge c partial !! key
  = match partial !! key with
    | Some v => Some v
    | None => c !! key
    end.
Proof.
  unfold pistachio_merge, mapping in *. rewrite lookup_union.
  destruct (partial !! key), (c !! key); reflexivity.
Qed.

Lemma nested_send_is_dropped n R ev' (k : reply -> @prog V R) m :
  processing m = true ->
  run_at (S n) R (Do (CallSend ev') k) m = run_at n R (k RVoid) m.
Proof.
  intros Hp. cbn [run].
  assert (as_reply (perform config code n (run_at n) (CallSend ev')) m
          = Some (Returned RVoid, m, [])) as Hcall.
  { unfold as_reply, try_catch. cbn [perform].
    rewrite (bind_returned _ _ _ _ _ _
               (send_dropped config code n (run_at n) ev' m (or_intror Hp))).
    reflexivity. }
  rewrite (bind_returned _ _ _ _ _ _ Hcall).
  destruct (run_at n R (k RVoid) m) as [[[o m2] tr2]|]; reflexivity.
Qed.

(** C4.  (1) When the machine is not running or a dispatch is in progress,
    [send] returns normally, leaves the machine exactly as it is and calls
    nothing.  (2) When filtering leaves no transition, [send] returns
    normally, leaves the machine exactly as it is and calls only guards: no
    action and no listener.  (3) A [send] that an action handler makes during
    a dispatch does nothing: the handler goes on as if it had not made it;
    and whatever a callback does while the latch is set leaves the state,
    the context and the latch alone and calls no guard and no action, so no
    second dispatch takes place.  (4) The outer dispatch completes: when the
    rest of the handler returns [result] and the notification comes back,
    the outer [send] returns normally, in the winner's [to] state, with the
    context merged with [result]. *)
Theorem send_noop_cases_and_reentrancy :
  (forall n ev m,
      running m = false \/ processing m = true ->
      send_at n ev m = Some (Returned tt, m, [])) /\
  (forall n ev m m1 tr1,
      running m = true -> processing m = false ->
      filtering ev (set_processing true m) = Some (Returned [], m1, tr1) ->
      send_at n ev m = Some (Returned tt, m, tr1) /\
      Forall (fun o => is_guard_call o = true) tr1) /\
  (forall n R ev' (k : reply -> @prog V R) m,
      processing m = true ->
      run_at (S n) R (Do (CallSend ev') k) m = run_at n R (k RVoid) m) /\
  (forall n R (p : @prog V R) m o m' tr,
      processing m = true ->
      run_at n R p m = Some (o, m', tr) ->
      undisturbed m m' tr) /\
  (forall n ev m found m1 tr1 w name handler ev' k result m2 tr2 o3 m3 tr3,
      running m = true -> processing m = false ->
      filtering ev (set_processing true m) = Some (Returned found, m1, tr1) ->
      pistachio_sort found by_priority !! 0%nat = Some w ->
      action w = Some name -> name <> EmptyString ->
      lookup_action config name = Some handler ->
      handler (params_of m ev) = Do (CallSend ev') k ->
      run_at n (option mapping) (k RVoid)
             (set_state (to w) (set_processing true m))
      = Some (Returned result, m2, tr2) ->
      notify_at (S n)
        match result with
        | Some partial => set_context (spread2 (context m2) partial) m2
        | None => m2
        end
      = Some (o3, m3, tr3) ->
      send_at (S n) ev m
      = Some (Returned tt, set_processing false m3,
              tr1 ++ ActionCalled name (params_of m ev) :: tr2 ++ tr3) /\
      state (set_processing false m3) = to w /\
      context (set_processing false m3)
      = match result with
        | Some partial => pistachio_merge (context m) partial
        | None => context m
        end).
Proof.
  split; [|split; [|split; [|split]]].
  - intros n ev m H. apply send_dropped, H.
  - intros n ev m m1 tr1 Hr Hp Hf.
    destruct (filter_returned config _ _ _ _ _ Hf) as (-> & _ & Htr & _).
    split; [|subst tr1; apply guard_calls_are_guard_calls].
    rewrite (send_dispatches config code n ev m Hr Hp). unfold try_finally.
    rewrite (dispatch_nothing config code n ev _ _ _ Hf).
    rewrite (unlatch_latch m Hp). reflexivity.
  - intros n R ev' k m Hp. apply nested_send_is_dropped, Hp.
  - intros n R p m o m' tr. apply run_undisturbed.
  - intros n ev m found m1 tr1 w name handler ev' k result m2 tr2 o3 m3 tr3
           Hr Hp Hf Hw Ha Hne Hl Hh Hrun Hn.
    assert (run_at (S n) (option mapping) (handler (params_of m ev))
                   (set_state (to w) (set_processing true m))
            = Some (Returned result, m2, tr2)) as Hrun'
      by (rewrite Hh, nested_send_is_dropped by reflexivity; exact Hrun).
    destruct (send_with_action (S n) ev m found m1 tr1 w name handler result
                m2 tr2 o3 m3 tr3 Hr Hp Hf Hw Ha Hne Hl Hrun' Hn)
      as (Hsend & Hs & Hc).
    split; [exact Hsend|]. split; [exact Hs|exact Hc].
Qed.

(** C5.  A transition [t] of the table that matches the state and the event
    and whose guard returns false is not among the transitions that
    filtering leaves.  When filtering leaves none, [send] returns with the
    machine exactly as it was, having called only guards.  When it leaves
    some, the one applied is the first of highest priority among them, which
    passes its own guard and hence is not [t]; in what [send] calls, all the
    guard calls come first, and the only action called after them is the
    winner's. *)
Theorem send_skips_rejected_transition
    (n : nat) (ev : MachineEvent) (m : machine)
    (found : list MachineTransition) (m1 : machine) (tr1 : trace)
    (t : MachineTransition) :
  running m = true ->
  processing m = false ->
  filtering ev (set_processing true m) = Some (Returned found, m1, tr1) ->
  In t (transitions config) ->
  rejected config m ev t = true ->
  ~ In t found /\
  Forall (fun o => is_guard_call o = true) tr1 /\
  (found = [] -> send_at n ev m = Some (Returned tt, m, tr1)) /\
  (found <> [] ->
   exists w,
     pistachio_sort found by_priority !! 0%nat = Some w /\
     In w found /\ passes config m ev w = true /\ w <> t /\
     forall o m2 tr2,
       apply_at n ev w (set_processing true m) = Some (o, m2, tr2) ->
       send_at n ev m = Some (o, set_processing false m2, tr1 ++ tr2) /\
       state (set_processing false m2) = to w /\
       Forall (fun o => is_guard_call o = false) tr2 /\
       forall name p, In (ActionCalled name p) (tr1 ++ tr2) ->
                      action w = Some name).
Proof.
  intros Hr Hp Hf Hin Hrej.
  destruct (filter_returned config _ _ _ _ _ Hf) as (-> & Hfound & Htr & _).
  change (found = candidates config m ev) in Hfound.
  assert (passes config m ev t = false) as Hfail.
  { unfold rejected in Hrej. unfold passes.
    destruct (applies m ev t); [|reflexivity]. cbn in *.
    destruct (guard t) as [g|]; [|discriminate].
    destruct (String.eqb g EmptyString); [discriminate|]. cbn in Hrej.
    destruct (lookup_guard config g) as [h|]; [|reflexivity].
    destruct (h (params_of m ev)) as [[]|]; first [discriminate|reflexivity]. }
  assert (Forall (fun o => is_guard_call o = true) tr1) as Hguards
    by (subst tr1; apply guard_calls_are_guard_calls).
  split; [|split; [exact Hguards|split]].
  - rewrite Hfound. unfold candidates. intros [_ Hpass]%List.filter_In.
    congruence.
  - intros ->.
    rewrite (send_dispatches config code n ev m Hr Hp). unfold try_finally.
    rewrite (dispatch_nothing config code n ev _ _ _ Hf).
    rewrite (unlatch_latch m Hp). reflexivity.
  - intros Hne.
    destruct (sort_by_priority_first found Hne)
      as (before & w & after & Hsplit & Hfirst & _ & _).
    assert (In w found) as Hw
      by (rewrite Hsplit; apply in_or_app; right; left; reflexivity).
    assert (passes config m ev w = true) as Hpass.
    { rewrite Hfound in Hw. unfold candidates in Hw.
      apply List.filter_In in Hw. apply Hw. }
    exists w. repeat (split; [first [assumption|congruence]|]).
    intros o m2 tr2 Happly.
    rewrite (send_dispatches config code n ev m Hr Hp). unfold try_finally.
    rewrite (dispatch_applies config code n ev found w _ _ _ Hf Hfirst).
    rewrite Happly. split; [reflexivity|].
    apply apply_transition_inv in Happly as (Hs & _ & Hg & Ha);
      [|reflexivity].
    split; [exact Hs|]. split; [exact Hg|].
    intros name p [Hin1|Hin2]%in_app_or.
    + exfalso. rewrite List.Forall_forall in Hguards.
      specialize (Hguards _ Hin1). discriminate.
    + apply (Ha name p Hin2).
Qed.

(** C6.  In a dispatch whose winning transition's action handler returns
    [result], once the notification has come back [send] returns normally
    and the context is the merge of the previous context with the returned
    mapping (a key of the returned mapping has the returned value, any other
    key the value it had) when [result] is a mapping, and the previous
    context when the handler returned nothing. *)
Theorem send_merges_action_result
    (n : nat) (ev : MachineEvent) (m : machine)
    (found : list MachineTransition) (m1 : machine) (tr1 : trace)
    (w : MachineTransition) (name : string) (handler : action_handler)
    (result : option mapping) (m2 : machine) (tr2 : trace)
    (o3 : outcome unit) (m3 : machine) (tr3 : trace) :
  running m = true ->
  processing m = false ->
  filtering ev (set_processing true m) = Some (Returned found, m1, tr1) ->
  pistachio_sort found by_priority !! 0%nat = Some w ->
  action w = Some name ->
  name <> EmptyString ->
  lookup_action config name = Some handler ->
  run_at n (option mapping) (handler (params_of m ev))
         (set_state (to w) (set_processing true m))
  = Some (Returned result, m2, tr2) ->
  notify_at n
    match result with
    | Some partial => set_context (spread2 (context m2) partial) m2
    | None => m2
    end
  = Some (o3, m3, tr3) ->
  send_at n ev m
  = Some (Returned tt, set_processing false m3,
          tr1 ++ ActionCalled name (params_of m ev) :: tr2 ++ tr3) /\
  match result with
  | Some partial =>
      context (set_processing false m3) = pistachio_merge (context m) partial /\
      forall key,
        context (set_processing false m3) !! key
        = match partial !! key with
          | Some v => Some v
          | None => context m !! key
          end
  | None => context (set_processing false m3) = context m
  end.
Proof.
  intros Hr Hp Hf Hw Ha Hne Hl Hrun Hn.
  destruct (send_with_action n ev m found m1 tr1 w name handler result
              m2 tr2 o3 m3 tr3 Hr Hp Hf Hw Ha Hne Hl Hrun Hn)
    as (Hsend & _ & Hc).
  split; [exact Hsend|].
  destruct result as [partial|]; cbn; [|exact Hc].
  split; [exact Hc|]. intros key. rewrite Hc. apply merge_lookup.
Qed.

End SendWithCallbacks.

(** ** The claims about [subscribe] and [notify] *)

Section Subscriptions.

Context {V : Type}.
Variable config : @MachineConfig V.
Variable code : listener_id -> @listener V.

Local Abbreviation run_at n := (run config code n).
Local Abbreviation notify_at n := (notify code n (run config code n)).
Local Abbreviation action_at n := (run_action config (run config code n)).
Local Abbreviation apply_at n :=
  (apply_transition config code n (run config code n)).

Lemma subscribe_immediate (run : forall R : Type, @prog V R -> @M V R)
    l options m :
  immediate_by_default options ->
  subscribe code run l options m
  = match run unit (code l (state m) (context m) (props m))
              (set_listeners (Set_add l (listeners m)) m) with
    | Some (o, m1, tr1) =>
        Some (o, m1, ListenerCalled l (state m) (context m) (props m) :: tr1)
    | None => None
    end.
Proof.
  intros Hopt. unfold subscribe. rewrite bind_modify.
  assert (match options with
          | Some o => default true (immediate o)
          | None => true
          end = true) as ->
    by (destruct Hopt as [->|[->| ->]]; reflexivity).
  exact (call_listener_eq code run l
           (set_listeners (Set_add l (listeners m)) m)).
Qed.

Lemma subscribe_not_immediate (run : forall R : Type, @prog V R -> @M V R)
    l m :
  subscribe code run l (Some (Options (Some false))) m
  = Some (Returned tt, set_listeners (Set_add l (listeners m)) m, []).
Proof. unfold subscribe. rewrite bind_modify. reflexivity. Qed.

Lemma registered_elem l (entries : list (option listener_id)) :
  In l (registered entries) <-> In (Some l) entries.
Proof.
  unfold registered. rewrite <- !list_elem_of_In, list_elem_of_omap.
  split.
  - intros (entry & Hin & Heq). cbn in Heq. subst entry. exact Hin.
  - intros Hin. exists (Some l). auto.
Qed.

Lemma Set_add_registered l (entries : list (option listener_id)) :
  In l (registered (Set_add l entries)).
Proof.
  apply registered_elem. unfold Set_add, Set_has.
  destruct (bool_decide_reflect (Some l ∈ entries)) as [Hin|_].
  - apply list_elem_of_In, Hin.
  - apply in_or_app. right. left. reflexivity.
Qed.

Lemma Set_delete_registered l (entries : list (option listener_id)) :
  registered (Set_delete l entries)
  = List.filter (fun l' => negb (Nat.eqb l' l)) (registered entries).
Proof.
  unfold Set_delete. induction entries as [|[l'|] rest IH];
    [reflexivity| |exact IH].
  cbn [fmap list_fmap]. 
  destruct (bool_decide_reflect (Some l' = Some l)) as [[= ->]|Hne].
  - rewrite registered_cons_none, registered_cons_some. cbn [List.filter].
    rewrite Nat.eqb_refl. exact IH.
  - rewrite !registered_cons_some. cbn [List.filter].
    destruct (Nat.eqb_spec l' l) as [->|_]; [congruence|].
    cbn [negb]. f_equal. exact IH.
Qed.

Lemma Set_delete_twice l (entries : list (option listener_id)) :
  Set_delete l (Set_delete l entries) = Set_delete l entries.
Proof.
  unfold Set_delete. rewrite <- list_fmap_compose.
  apply list_fmap_ext. intros _ entry _. cbn.
  destruct (bool_decide_reflect (entry = Some l)) as [_|Hne].
  - reflexivity.
  - rewrite bool_decide_eq_false_2 by exact Hne. reflexivity.
Qed.

Lemma unsubscribe_eq l (m : @machine V) :
  unsubscribe l m
  = Some (Returned (Set_has l (listeners m)),
          set_listeners (Set_delete l (listeners m)) m, []).
Proof. unfold unsubscribe. rewrite bind_get, bind_modify. reflexivity. Qed.

Lemma notification_only_registered l (m : @machine V) :
  ~ In l (registered (listeners m)) ->
  Forall (fun o => is_call_of l o = false) (notification code m).
Proof.
  unfold notification. generalize (registered (listeners m)) as ls.
  induction ls as [|l' ls IH]; intros Hnot; [constructor|].
  cbn [flat_map]. apply Forall_app. split.
  - unfold report. constructor.
    + cbn. destruct (Nat.eqb_spec l l') as [->|_]; [|reflexivity].
      exfalso. apply Hnot. left. reflexivity.
    + destruct (code l' (state m) (context m) (props m));
        repeat constructor.
  - apply IH. intros Hin. apply Hnot. right. exact Hin.
Qed.

(** C7.  (1) [subscribe] with no options, no [immediate] field or
    [immediate: true] registers the listener and calls it, before it
    returns, with the state, context and props the machine has at that
    moment; what [subscribe] shows is that one call followed by whatever the
    listener's own body does, and [subscribe] ends as the body ends.  (2) For
    a listener that makes no call itself that is exactly one call.  (3)
    With [immediate: false] the listener is registered and not called.
    (4) The function [subscribe] returns deletes that listener from the
    [Set]: it is no longer registered, the other listeners are, in the same
    order; (5) deleting again changes nothing; (6) and a notification pass
    after it does not call the listener. *)
Theorem subscribe_calls_once_unsubscribe_removes :
  (forall n l options m o m1 tr1,
      immediate_by_default options ->
      run_at n unit (code l (state m) (context m) (props m))
             (set_listeners (Set_add l (listeners m)) m)
      = Some (o, m1, tr1) ->
      subscribe code (run_at n) l options m
      = Some (o, m1,
              ListenerCalled l (state m) (context m) (props m) :: tr1)) /\
  (forall n l options m,
      immediate_by_default options ->
      direct (code l (state m) (context m) (props m)) ->
      exists o,
        subscribe code (run_at (S n)) l options m
        = Some (o, set_listeners (Set_add l (listeners m)) m,
                [ListenerCalled l (state m) (context m) (props m)])) /\
  (forall n l m,
      subscribe code (run_at n) l (Some (Options (Some false))) m
      = Some (Returned tt, set_listeners (Set_add l (listeners m)) m, [])) /\
  (forall l (m : @machine V),
      unsubscribe l m
      = Some (Returned (Set_has l (listeners m)),
              set_listeners (Set_delete l (listeners m)) m, []) /\
      ~ In l (registered (Set_delete l (listeners m))) /\
      registered (Set_delete l (listeners m))
      = List.filter (fun l' => negb (Nat.eqb l' l))
                    (registered (listeners m))) /\
  (forall l (m : @machine V),
      unsubscribe l (set_listeners (Set_delete l (listeners m)) m)
      = Some (Returned false,
              set_listeners (Set_delete l (listeners m)) m, [])) /\
  (forall n bound l m,
      Forall (fun l' => direct (code l' (state m) (context m) (props m)))
             (registered (Set_delete l (listeners m))) ->
      length (listeners m) < bound ->
      notify code bound (run_at (S n))
             (set_listeners (Set_delete l (listeners m)) m)
      = Some (Returned tt, set_listeners (Set_delete l (listeners m)) m,
              notification code
                (set_listeners (Set_delete l (listeners m)) m)) /\
      Forall (fun o => is_call_of l o = false)
             (notification code
                (set_listeners (Set_delete l (listeners m)) m))).
Proof.
  assert (forall l (entries : list (option listener_id)),
             ~ In l (registered (Set_delete l entries))) as Hgone.
  { intros l entries. rewrite Set_delete_registered.
    intros [_ Hl]%List.filter_In. rewrite Nat.eqb_refl in Hl. discriminate. }
  split; [|split; [|split; [|split; [|split]]]].
  - intros n l options m o m1 tr1 Hopt Hrun.
    rewrite (subscribe_immediate _ _ _ _ Hopt), Hrun. reflexivity.
  - intros n l options m Hopt Hd.
    rewrite (subscribe_immediate _ _ _ _ Hopt).
    rewrite (run_direct config code n unit _ _ Hd). eauto.
  - intros n l m. apply subscribe_not_immediate.
  - intros l m. split; [apply unsubscribe_eq|].
    split; [apply Hgone|apply Set_delete_registered].
  - intros l m. rewrite unsubscribe_eq. cbn [listeners set_listeners].
    rewrite Set_delete_twice. do 4 f_equal.
    unfold Set_has. apply bool_decide_eq_false_2.
    intros Hin%list_elem_of_In%registered_elem. exact (Hgone _ _ Hin).
  - intros n bound l m Hd Hb. split.
    + apply notify_direct; [exact Hd|].
      cbn [listeners set_listeners]. unfold Set_delete.
      rewrite length_fmap. exact Hb.
    + apply notification_only_registered. apply Hgone.
Qed.

(** C8.  (1) The loop of [notify] never throws.  (2) When the listener of a
    turn throws, the loop writes the error to [console.error] and goes on
    with the next entry of the [Set]; (3) it goes on in the same way when
    the listener returns.  (4) [syncProps] never throws, (5) and once the
    action block of a dispatch has returned, what is left of [send] returns
    normally too.  (6) In a pass over listeners that make no call
    themselves, every registered listener is called with the same state,
    context and props, and every error thrown is written to
    [console.error]. *)
Theorem notify_contains_listener_errors :
  (forall run fuel i m o m' tr,
      notify_from code run fuel i m = Some (o, m', tr) -> o = Returned tt) /\
  (forall run fuel i m l e m1 tr1,
      listeners m !! i = Some (Some l) ->
      call_listener code run l m = Some (Thrown e, m1, tr1) ->
      notify_from code run (S fuel) i m
      = match notify_from code run fuel (S i) m1 with
        | Some (o, m2, tr2) =>
            Some (o, m2, (tr1 ++ [ConsoleError e]) ++ tr2)
        | None => None
        end) /\
  (forall run fuel i m l m1 tr1,
      listeners m !! i = Some (Some l) ->
      call_listener code run l m = Some (Returned tt, m1, tr1) ->
      notify_from code run (S fuel) i m
      = match notify_from code run fuel (S i) m1 with
        | Some (o, m2, tr2) => Some (o, m2, tr1 ++ tr2)
        | None => None
        end) /\
  (forall run bound newProps m o m' tr,
      syncProps code bound run newProps m = Some (o, m', tr) ->
      o = Returned tt) /\
  (forall n ev w m u m2 tr2 o m3 tr,
      action_at n ev w (set_state (to w) m) = Some (Returned u, m2, tr2) ->
      apply_at n ev w m = Some (o, m3, tr) ->
      o = Returned tt) /\
  (forall n bound m,
      Forall (fun l => direct (code l (state m) (context m) (props m)))
             (registered (listeners m)) ->
      length (listeners m) < bound ->
      notify code bound (run_at (S n)) m
      = Some (Returned tt, m, notification code m) /\
      forall l,
        In l (registered (listeners m)) ->
        In (ListenerCalled l (state m) (context m) (props m))
           (notification code m) /\
        forall e,
          code l (state m) (context m) (props m) = Throw e ->
          In (ConsoleError e) (notification code m)).
Proof.
  split; [|split; [|split; [|split; [|split]]]].
  - intros run. apply notify_from_never_throws.
  - intros run. apply notify_from_thrown.
  - intros run. apply notify_from_returned.
  - intros run bound newProps m o m' tr. unfold syncProps, notify.
    rewrite bind_modify. apply notify_from_never_throws.
  - intros n ev w m u m2 tr2 o m3 tr Hact. unfold apply_transition.
    rewrite bind_modify, (bind_returned _ _ _ _ _ _ Hact).
    unfold notify.
    destruct (notify_from code (run_at n) n 0 m2) as [[[o' m'] tr']|] eqn:Hn;
      [|discriminate].
    intros [= <- <- <-]. eapply notify_from_never_throws, Hn.
  - intros n bound m Hd Hb. split; [apply notify_direct; assumption|].
    intros l Hin. unfold notification.
    split.
    + apply in_flat_map. exists l. split; [exact Hin|]. left. reflexivity.
    + intros e He. apply in_flat_map. exists l. split; [exact Hin|].
      unfold report. rewrite He. right. left. reflexivity.
Qed.

(** C10.  When [subscribe] calls the listener at registration and the
    listener throws, [subscribe] throws the same error: what it shows is the
    call and what the listener's body did, with nothing written to
    [console.error] for the error.  The listener was registered before the
    call, and [subscribe] leaves the machine as the listener's body left it:
    for a body that just throws, that is the machine with the listener
    registered. *)
Theorem subscribe_rethrows_and_keeps_listener
    (n : nat) (l : listener_id) (options : option SubscribeOptions)
    (m : machine) (e : string) (m1 : machine) (tr1 : trace) :
  immediate_by_default options ->
  run_at n unit (code l (state m) (context m) (props m))
         (set_listeners (Set_add l (listeners m)) m)
  = Some (Thrown e, m1, tr1) ->
  subscribe code (run_at n) l options m
  = Some (Thrown e, m1,
          ListenerCalled l (state m) (context m) (props m) :: tr1) /\
  In l (registered (listeners (set_listeners (Set_add l (listeners m)) m))) /\
  (code l (state m) (context m) (props m) = Throw e ->
   m1 = set_listeners (Set_add l (listeners m)) m /\ tr1 = [] /\
   In l (registered (listeners m1))).
Proof.
  intros Hopt Hrun. split; [|split].
  - rewrite (subscribe_immediate _ _ _ _ Hopt), Hrun. reflexivity.
  - apply Set_add_registered.
  - intros Hbody. rewrite Hbody in Hrun.
    destruct n as [|n]; [discriminate|]. cbn in Hrun.
    injection Hrun as <- <-. repeat split. apply Set_add_registered.
Qed.

End Subscriptions.

(** ** The snapshots of [getContext] and [getProps] *)

Section Snapshots.

Context {V : Type}.

Lemma alloc_fresh (o : @object V) (s : store) :
  heap s !! (alloc o s).1 = None.
Proof. cbn. apply not_elem_of_dom, is_fresh. Qed.

Lemma alloc_lookup (o : @object V) (s : store) (l : loc) :
  heap (alloc o s).2 !! l
  = if decide (l = (alloc o s).1) then Some o else heap s !! l.
Proof.
  cbn. destruct (decide (l = fresh (dom (heap s)))) as [->|Hne].
  - apply lookup_insert_eq.
  - apply lookup_insert_ne. congruence.
Qed.

(** Taking a snapshot of the object at [source]. *)
Lemma snapshot_spec (source : loc) (s : @store V) :
  let l := fresh (dom (heap s)) in
  let s1 := (freeze l (alloc (Object (read source s) false) s).2).2 in
  heap s !! l = None /\
  heap s1 !! l = Some (Object (read source s) true) /\
  context_ref s1 = context_ref s /\ props_ref s1 = props_ref s /\
  forall l', l' <> l -> heap s1 !! l' = heap s !! l'.
Proof.
  cbn. split; [apply not_elem_of_dom, is_fresh|].
  split; [|split; [reflexivity|split; [reflexivity|]]].
  - rewrite lookup_alter_eq, lookup_insert_eq. reflexivity.
  - intros l' Hne. rewrite lookup_alter_ne, lookup_insert_ne by congruence.
    reflexivity.
Qed.

(** The store operations compute the values of the machine section: the
    snapshot holds [getContext]'s value, and the rebinding of [context] and
    [props] the merges of [send] and [syncProps]. *)
Lemma store_getContext_value (s : @store V) :
  read (store_getContext s).1 (store_getContext s).2
  = pistachio_freeze (read (context_ref s) s).
Proof.
  destruct (snapshot_spec (context_ref s) s) as (_ & Hl & _).
  unfold read at 1. cbn in Hl |- *. rewrite Hl. reflexivity.
Qed.

Lemma store_getProps_value (s : @store V) :
  read (store_getProps s).1 (store_getProps s).2
  = pistachio_freeze (read (props_ref s) s).
Proof.
  destruct (snapshot_spec (props_ref s) s) as (_ & Hl & _).
  unfold read at 1. cbn in Hl |- *. rewrite Hl. reflexivity.
Qed.

Lemma store_merge_context_value (partial : gmap string V) (s : @store V) :
  read (context_ref (store_merge_context partial s))
       (store_merge_context partial s)
  = spread2 (read (context_ref s) s) partial.
Proof. unfold read at 1. cbn. rewrite lookup_insert_eq. reflexivity. Qed.

Lemma store_merge_props_value (newProps : gmap string V) (s : @store V) :
  read (props_ref (store_merge_props newProps s))
       (store_merge_props newProps s)
  = pistachio_merge (read (props_ref s) s) newProps.
Proof. unfold read at 1. cbn. rewrite lookup_insert_eq. reflexivity. Qed.

(** [createMachine] binds both variables to objects of the store. *)
Lemma store_create_wf (given_context given_props : option loc)
    (s : @store V) :
  (forall l, given_context = Some l -> is_Some (heap s !! l)) ->
  (forall l, given_props = Some l -> is_Some (heap s !! l)) ->
  store_wf (store_create given_context given_props s).
Proof.
  intros Hc Hp. unfold store_create, store_wf.
  destruct given_context as [lc|], given_props as [lp|]; cbn.
  - split; [apply Hc|apply Hp]; reflexivity.
  - destruct (Hc lc eq_refl) as [oc Hoc].
    rewrite lookup_insert_eq, lookup_insert_ne.
    + rewrite Hoc. eauto.
    + intros <-. pose proof (is_fresh (dom (heap s))) as Hf.
      apply not_elem_of_dom in Hf. congruence.
  - destruct (Hp lp eq_refl) as [op Hop].
    rewrite lookup_insert_eq, lookup_insert_ne.
    + rewrite Hop. eauto.
    + intros <-. pose proof (is_fresh (dom (heap s))) as Hf.
      apply not_elem_of_dom in Hf. congruence.
  - rewrite lookup_insert_eq, lookup_insert_ne, lookup_insert_eq; [eauto|].
    set (h1 := <[fresh (dom (heap s)) := Object ∅ false]> (heap s)).
    intros Heq. pose proof (is_fresh (dom h1)) as Hf.
    rewrite Heq in Hf. apply Hf. apply elem_of_dom.
    unfold h1. rewrite lookup_insert_eq. eauto.
Qed.

(** A frozen object stays as it is, whatever is done to the store. *)
Lemma frozen_object_stays (step : @store_step V) (s : store) (l : loc)
    (o : object) :
  heap s !! l = Some o -> frozen o = true ->
  heap (store_do step s) !! l = Some o.
Proof.
  intros Hl Hfrozen.
  assert (l <> fresh (dom (heap s))) as Hfresh.
  { intros ->. pose proof (is_fresh (dom (heap s))) as Hf.
    apply not_elem_of_dom in Hf. congruence. }
  destruct step as [| |partial|newProps|o'|l' key value|l' key]; cbn.
  - rewrite lookup_alter_ne, lookup_insert_ne by congruence. exact Hl.
  - rewrite lookup_alter_ne, lookup_insert_ne by congruence. exact Hl.
  - rewrite lookup_insert_ne by congruence. exact Hl.
  - rewrite lookup_insert_ne by congruence. exact Hl.
  - rewrite lookup_insert_ne by congruence. exact Hl.
  - unfold assign. destruct (heap s !! l') as [o''|] eqn:Hl'; [|exact Hl].
    destruct (frozen o'') eqn:Hf; [exact Hl|]. cbn.
    rewrite lookup_insert_ne; [exact Hl|]. intros ->. congruence.
  - unfold delete_key. destruct (heap s !! l') as [o''|] eqn:Hl'; [|exact Hl].
    destruct (frozen o'') eqn:Hf; [exact Hl|]. cbn.
    rewrite lookup_insert_ne; [exact Hl|]. intros ->. congruence.
Qed.

Lemma frozen_object_stays_run (steps : list (@store_step V)) :
  forall (s : store) (l : loc) (o : object),
    heap s !! l = Some o -> frozen o = true ->
    heap (store_run steps s) !! l = Some o.
Proof.
  unfold store_run. induction steps as [|step steps IH]; intros s l o Hl Hf;
    [exact Hl|].
  cbn [foldl]. apply IH; [|exact Hf]. apply frozen_object_stays; assumption.
Qed.

Lemma frozen_rejects_writes (s : @store V) (l : loc) (o : object) :
  heap s !! l = Some o -> frozen o = true ->
  (forall key value, exists message,
      assign l key value s = (Thrown message, s)) /\
  (forall key, exists message, delete_key l key s = (Thrown message, s)).
Proof.
  intros Hl Hf. split; intros; unfold assign, delete_key;
    rewrite Hl, Hf; eauto.
Qed.

Lemma store_do_wf (step : @store_step V) (s : store) :
  store_wf s -> store_wf (store_do step s).
Proof.
  intros [[oc Hc] [op Hp]].
  assert (context_ref s <> fresh (dom (heap s))) as Hfc.
  { intros Heq. pose proof (is_fresh (dom (heap s))) as Hf.
    apply not_elem_of_dom in Hf. congruence. }
  assert (props_ref s <> fresh (dom (heap s))) as Hfp.
  { intros Heq. pose proof (is_fresh (dom (heap s))) as Hf.
    apply not_elem_of_dom in Hf. congruence. }
  unfold store_wf.
  destruct step as [| |partial|newProps|o'|l' key value|l' key]; cbn.
  - rewrite !lookup_alter_ne, !lookup_insert_ne by congruence.
    rewrite Hc, Hp. eauto.
  - rewrite !lookup_alter_ne, !lookup_insert_ne by congruence.
    rewrite Hc, Hp. eauto.
  - rewrite lookup_insert_eq, lookup_insert_ne by congruence.
    rewrite Hp. eauto.
  - rewrite lookup_insert_eq, lookup_insert_ne by congruence.
    rewrite Hc. eauto.
  - rewrite !lookup_insert_ne by congruence. rewrite Hc, Hp. eauto.
  - unfold assign. destruct (heap s !! l') as [o''|] eqn:Hl';
      [|cbn; rewrite Hc, Hp; eauto].
    destruct (frozen o''); cbn; [rewrite Hc, Hp; eauto|].
    rewrite !lookup_insert. repeat case_decide; rewrite ?Hc, ?Hp; eauto.
  - unfold delete_key. destruct (heap s !! l') as [o''|] eqn:Hl';
      [|cbn; rewrite Hc, Hp; eauto].
    destruct (frozen o''); cbn; [rewrite Hc, Hp; eauto|].
    rewrite !lookup_insert. repeat case_decide; rewrite ?Hc, ?Hp; eauto.
Qed.

Lemma snapshot_is_frozen_snapshot (source : loc) (s : @store V) :
  store_wf s ->
  frozen_snapshot source s (fresh (dom (heap s)))
    (freeze (fresh (dom (heap s)))
            (alloc (Object (read source s) false) s).2).2.
Proof.
  intros [[oc Hc] [op Hp]].
  destruct (snapshot_spec source s) as (Hnew & Hl & Hcr & Hpr & Hother).
  set (l := fresh (dom (heap s))) in *.
  set (s1 := (freeze l (alloc (Object (read source s) false) s).2).2) in *.
  destruct (frozen_rejects_writes s1 l _ Hl eq_refl) as [Hassign Hdelete].
  unfold frozen_snapshot.
  split; [exact Hnew|].
  split; [rewrite Hcr; intros Heq; congruence|].
  split; [rewrite Hpr; intros Heq; congruence|].
  split; [exact Hl|]. split; [exact Hcr|]. split; [exact Hpr|].
  split; [exact Hother|]. split; [exact Hassign|]. split; [exact Hdelete|].
  intros steps.
  pose proof (frozen_object_stays_run steps s1 l _ Hl eq_refl) as Hstays.
  split; [exact Hstays|].
  pose proof (is_fresh (dom (heap (store_run steps s1)))) as Hf.
  apply not_elem_of_dom in Hf.
  split.
  - change (store_getContext (store_run steps s1)).1
      with (fresh (dom (heap (store_run steps s1)))).
    intros Heq. rewrite Heq in Hf. congruence.
  - change (store_getProps (store_run steps s1)).1
      with (fresh (dom (heap (store_run steps s1)))).
    intros Heq. rewrite Heq in Hf. congruence.
Qed.

(** C9.  Each call of [getContext] and of [getProps] returns a new object,
    which is neither of the objects the runtime keeps in [context] and
    [props], holds the values that mapping has at the call, and is frozen:
    assigning to a key of it or deleting one throws and changes nothing in
    the store, so neither another snapshot nor the runtime's own mappings.
    Whatever happens to the store afterwards (transitions that rebind
    [context], [syncProps], further snapshots, writes to any object), the
    snapshot holds the values it was taken with, and no later snapshot is
    the same object. *)
Theorem snapshots_are_frozen_copies (s : @store V) :
  store_wf s ->
  frozen_snapshot (context_ref s) s
                  (store_getContext s).1 (store_getContext s).2 /\
  frozen_snapshot (props_ref s) s
                  (store_getProps s).1 (store_getProps s).2 /\
  forall steps, store_wf (store_run steps s).
Proof.
  intros Hwf. split; [|split].
  - apply (snapshot_is_frozen_snapshot (context_ref s) s Hwf).
  - apply (snapshot_is_frozen_snapshot (props_ref s) s Hwf).
  - intros steps. revert s Hwf. unfold store_run.
    induction steps as [|step steps IH]; intros s Hwf; [exact Hwf|].
    cbn [foldl]. apply IH, store_do_wf, Hwf.
Qed.

End Snapshots.

(** ** The claims on the traffic light of the test-suite *)

(** Priorities 5, 10 and 3: the second transition is applied; priorities 5
    and 5: the first one is. *)
Lemma send_applies_first_of_highest_priority_witness :
  send priority_light test_listeners 1 (run priority_light test_listeners 1)
       TOGGLE (started priority_light)
  = Some (Returned tt, set_state "green" (started priority_light), []) /\
  send tied_light test_listeners 1 (run tied_light test_listeners 1)
       TOGGLE (started tied_light)
  = Some (Returned tt, set_state "red" (started tied_light), []).
Proof.
  split.
  - destruct (send_applies_first_of_highest_priority
                priority_light test_listeners 1 TOGGLE
                (started priority_light)
                (transitions priority_light)
                (set_processing true (started priority_light)) []
                eq_refl eq_refl eq_refl ltac:(discriminate))
      as (earlier & w & later & _ & _ & _ & _ & Hfirst & Hsend & _).
    vm_compute in Hfirst. injection Hfirst as <-.
    destruct (Hsend (Returned tt)
                (set_state "green"
                   (set_processing true (started priority_light)))
                [] eq_refl) as [Hresult _].
    exact Hresult.
  - destruct (send_applies_first_of_highest_priority
                tied_light test_listeners 1 TOGGLE
                (started tied_light)
                (transitions tied_light)
                (set_processing true (started tied_light)) []
                eq_refl eq_refl eq_refl ltac:(discriminate))
      as (earlier & w & later & _ & _ & _ & _ & Hfirst & Hsend & _).
    vm_compute in Hfirst. injection Hfirst as <-.
    destruct (Hsend (Returned tt)
                (set_state "red" (set_processing true (started tied_light)))
                [] eq_refl) as [Hresult _].
    exact Hresult.
Defined.





(** Before [start()] nothing happens; an event that no transition matches
    changes nothing; and the [TOGGLE] whose action sends [RESET] ends in
    [red] with [count] 1. *)
Lemma send_noop_cases_and_reentrancy_witness :
  send reentrant_light test_listeners 0
       (run reentrant_light test_listeners 0)
       TOGGLE (createMachine reentrant_light)
  = Some (Returned tt, createMachine reentrant_light, []) /\
  send reentrant_light test_listeners 0
       (run reentrant_light test_listeners 0)
       RESET (started reentrant_light)
  = Some (Returned tt, started reentrant_light, []) /\
  send reentrant_light test_listeners 2
       (run reentrant_light test_listeners 2)
       TOGGLE (started reentrant_light)
  = Some (Returned tt,
          set_context {[ "count" := VNumber 1 ]}
            (set_state "red" (started reentrant_light)),
          [ActionCalled "increment"
             (params_of (started reentrant_light) TOGGLE)]).
Proof.
  destruct (send_noop_cases_and_reentrancy reentrant_light test_listeners)
    as (Hdropped & Hnothing & _ & _ & Houter).
  split; [|split].
  - apply Hdropped. left. reflexivity.
  - apply (Hnothing 0 RESET (started reentrant_light)
                    (set_processing true (started reentrant_light)) []
                    eq_refl eq_refl eq_refl).
  - destruct (Houter 1 TOGGLE (started reentrant_light)
                [Transition "green" "TOGGLE" "red" (Some "increment")
                            None None]
                (set_processing true (started reentrant_light)) []
                (Transition "green" "TOGGLE" "red" (Some "increment")
                            None None)
                "increment" increment_and_reset RESET
                (fun _ => Ret (Some {[ "count" := VNumber 1 ]}))
                (Some {[ "count" := VNumber 1 ]})
                (set_state "red" (set_processing true
                                    (started reentrant_light)))
                []
                (Returned tt)
                (set_context {[ "count" := VNumber 1 ]}
                   (set_state "red" (set_processing true
                                       (started reentrant_light))))
                []
                eq_refl eq_refl eq_refl eq_refl eq_refl
                ltac:(discriminate) eq_refl eq_refl eq_refl eq_refl)
      as (Hsend & _ & _).
    exact Hsend.
Defined.

(** [count] 10 is not below [maxCount] 5: the guarded transition is
    rejected, its action [increment] is not called, and the transition of
    lower priority that survives is applied. *)
Lemma send_skips_rejected_transition_witness :
  send guarded_light test_listeners 1 (run guarded_light test_listeners 1)
       TOGGLE (started guarded_light)
  = Some (Returned tt, set_state "amber" (started guarded_light),
          [GuardCalled "canIncrement"
                       (params_of (started guarded_light) TOGGLE)
                       (Returned false)]) /\
  ~ In (Transition "green" "TOGGLE" "red" (Some "increment")
                   (Some "canIncrement") (Some 1%Z))
       [Transition "green" "TOGGLE" "amber" None None None].
Proof.
  destruct (send_skips_rejected_transition
              guarded_light test_listeners 1 TOGGLE (started guarded_light)
              [Transition "green" "TOGGLE" "amber" None None None]
              (set_processing true (started guarded_light))
              [GuardCalled "canIncrement"
                           (params_of (started guarded_light) TOGGLE)
                           (Returned false)]
              (Transition "green" "TOGGLE" "red" (Some "increment")
                          (Some "canIncrement") (Some 1%Z))
              eq_refl eq_refl eq_refl (or_introl eq_refl) eq_refl)
    as (Hout & _ & _ & Hsome).
  split; [|exact Hout].
  destruct (Hsome ltac:(discriminate)) as (w & Hfirst & _ & _ & _ & Hsend).
  vm_compute in Hfirst. injection Hfirst as <-.
  destruct (Hsend (Returned tt)
              (set_state "amber"
                 (set_processing true (started guarded_light)))
              [] eq_refl) as [Hresult _].
  exact Hresult.
Defined.

(** [context = { count: 5 }] and an action returning
    [{ count: context.count + 10 }]: the context is [{ count: 15 }]. *)
Lemma send_merges_action_result_witness :
  send merging_light test_listeners 1 (run merging_light test_listeners 1)
       TOGGLE (started merging_light)
  = Some (Returned tt,
          set_context {[ "count" := VNumber 15 ]}
            (set_state "red" (started merging_light)),
          [ActionCalled "increment"
             (params_of (started merging_light) TOGGLE)]) /\
  context (set_context {[ "count" := VNumber 15 ]}
             (set_state "red" (started merging_light)))
  = pistachio_merge (context (started merging_light))
                    {[ "count" := VNumber 15 ]}.
Proof.
  destruct (send_merges_action_result
              merging_light test_listeners 1 TOGGLE (started merging_light)
              (transitions merging_light)
              (set_processing true (started merging_light)) []
              (Transition "green" "TOGGLE" "red" (Some "increment")
                          None None)
              "increment" add_ten
              (Some {[ "count" := VNumber 15 ]})
              (set_state "red" (set_processing true (started merging_light)))
              []
              (Returned tt)
              (set_context {[ "count" := VNumber 15 ]}
                 (set_state "red"
                    (set_processing true (started merging_light))))
              []
              eq_refl eq_refl eq_refl eq_refl eq_refl
              ltac:(discriminate) eq_refl eq_refl eq_refl)
    as (Hsend & Hmerged & _).
  split; [exact Hsend|exact Hmerged].
Defined.

(** Listener 1 is called once by [subscribe(listener)], not at all with
    [immediate: false]; after its [unsubscribe] a notification calls only
    listener 0. *)
Lemma subscribe_calls_once_unsubscribe_removes_witness :
  subscribe test_listeners (run priority_light test_listeners 1) 1 None
            (started priority_light)
  = Some (Returned tt,
          set_listeners [Some 1] (started priority_light),
          [ListenerCalled 1 "green" ∅ ∅]) /\
  subscribe test_listeners (run priority_light test_listeners 1) 1
            (Some (Options (Some false))) (started priority_light)
  = Some (Returned tt, set_listeners [Some 1] (started priority_light), []) /\
  unsubscribe 1 observed_light
  = Some (Returned true,
          set_listeners [Some 0; None] (started priority_light), []) /\
  notify test_listeners 3 (run priority_light test_listeners 1)
         (set_listeners [Some 0; None] (started priority_light))
  = Some (Returned tt,
          set_listeners [Some 0; None] (started priority_light),
          [ListenerCalled 0 "green" ∅ ∅; ConsoleError "Listener error"]).
Proof.
  destruct (subscribe_calls_once_unsubscribe_removes
              priority_light test_listeners)
    as (Hcall & _ & Hsilent & Hdelete & _ & Hafter).
  split; [|split; [|split]].
  - apply (Hcall 1 1 None (started priority_light) (Returned tt)
                 (set_listeners [Some 1] (started priority_light)) []
                 (or_introl eq_refl) eq_refl).
  - apply (Hsilent 1 1 (started priority_light)).
  - destruct (Hdelete 1 observed_light) as [Hun _]. exact Hun.
  - destruct (Hafter 0 3 1 observed_light) as [Hnotify _].
    + repeat constructor.
    + cbn. lia.
    + exact Hnotify.
Defined.

(** Listener 0 throws: listener 1 is called all the same, with the same
    arguments, and the error goes to [console.error]. *)
Lemma notify_contains_listener_errors_witness :
  notify test_listeners 3 (run priority_light test_listeners 1)
         observed_light
  = Some (Returned tt, observed_light,
          [ListenerCalled 0 "green" ∅ ∅; ConsoleError "Listener error";
           ListenerCalled 1 "green" ∅ ∅]).
Proof.
  destruct (notify_contains_listener_errors priority_light test_listeners)
    as (_ & _ & _ & _ & _ & Hdirect).
  destruct (Hdirect 0 3 observed_light) as [Hnotify _].
  - repeat constructor.
  - cbn. lia.
  - exact Hnotify.
Defined.

(** [subscribe] of the listener that throws: the error leaves [subscribe],
    nothing is written to [console.error], the listener is registered. *)
Lemma subscribe_rethrows_and_keeps_listener_witness :
  subscribe test_listeners (run priority_light test_listeners 1) 0 None
            (started priority_light)
  = Some (Thrown "Listener error",
          set_listeners [Some 0] (started priority_light),
          [ListenerCalled 0 "green" ∅ ∅]) /\
  In 0 (registered
          (listeners (set_listeners [Some 0] (started priority_light)))).
Proof.
  destruct (subscribe_rethrows_and_keeps_listener
              priority_light test_listeners 1 0 None (started priority_light)
              "Listener error"
              (set_listeners [Some 0] (started priority_light)) []
              (or_introl eq_refl) eq_refl)
    as (Hsub & Hin & _).
  split; [exact Hsub|exact Hin].
Defined.

(** A snapshot of [{ count: 0 }]: object 3, frozen, which a write leaves as
    it is and a later transition too. *)
Lemma snapshots_are_frozen_copies_witness :
  store_wf test_store /\
  frozen_snapshot 1%positive test_store
                  (store_getContext test_store).1
                  (store_getContext test_store).2 /\
  frozen_snapshot 2%positive test_store
                  (store_getProps test_store).1
                  (store_getProps test_store).2.
Proof.
  assert (store_wf test_store) as Hwf.
  { split; eexists; reflexivity. }
  destruct (snapshots_are_frozen_copies test_store Hwf) as (Hc & Hp & _).
  split; [exact Hwf|]. split; [exact Hc|exact Hp].
Defined.

(** * Further properties of the handle *)

(** ** [start] and [stop] *)

Section Lifecycle.

Context {V : Type}.
Variable config : @MachineConfig V.
Variable code : listener_id -> @listener V.

Local Abbreviation run_at n := (run config code n).
Local Abbreviation send_at n := (send config code n (run config code n)).

Lemma set_running_id (b : bool) (m : @machine V) :
  running m = b -> set_running b m = m.
Proof. destruct m; cbn. intros ->. reflexivity. Qed.

Lemma start_eq (m : @machine V) :
  start m = Some (Returned tt, set_running true m, []).
Proof.
  unfold start. rewrite bind_get. destruct (running m) eqn:Hr; [|reflexivity].
  rewrite (set_running_id true m Hr). reflexivity.
Qed.

Lemma stop_eq (m : @machine V) :
  stop m = Some (Returned tt, set_running false m, []).
Proof.
  unfold stop. rewrite bind_get. destruct (running m) eqn:Hr; [reflexivity|].
  rewrite (set_running_id false m Hr). reflexivity.
Qed.

(** X1.  [start] and [stop] return normally, call nothing and change only
    [running]; each is idempotent ([start] twice is [start] once), and they
    undo each other: [start] then [stop] on a stopped machine, and [stop]
    then [start] on a running one, leave the machine exactly as it was. *)
Theorem start_stop_idempotent_and_inverse (m : @machine V) :
  start m = Some (Returned tt, set_running true m, []) /\
  stop m = Some (Returned tt, set_running false m, []) /\
  bind start (fun _ => start) m = start m /\
  bind stop (fun _ => stop) m = stop m /\
  (running m = false ->
   bind start (fun _ => stop) m = Some (Returned tt, m, [])) /\
  (running m = true ->
   bind stop (fun _ => start) m = Some (Returned tt, m, [])).
Proof.
  split; [apply start_eq|]. split; [apply stop_eq|].
  split; [|split; [|split]].
  - rewrite (bind_returned _ _ _ _ _ _ (start_eq m)), !start_eq. reflexivity.
  - rewrite (bind_returned _ _ _ _ _ _ (stop_eq m)), !stop_eq. reflexivity.
  - intros Hr. rewrite (bind_returned _ _ _ _ _ _ (start_eq m)), stop_eq.
    cbn. do 3 f_equal. destruct m; cbn in *. subst. reflexivity.
  - intros Hr. rewrite (bind_returned _ _ _ _ _ _ (stop_eq m)), start_eq.
    cbn. do 3 f_equal. destruct m; cbn in *. subst. reflexivity.
Qed.

Lemma send_all_stopped n evs (m : @machine V) :
  running m = false ->
  send_all config code n (run_at n) evs m = Some (Returned tt, m, []).
Proof.
  intros Hr. induction evs as [|ev rest IH]; [reflexivity|].
  cbn [send_all].
  rewrite (bind_returned _ _ _ _ _ _
             (send_dropped config code n (run_at n) ev m (or_introl Hr))).
  rewrite IH. reflexivity.
Qed.

(** X2.  Events sent while the machine is stopped are discarded, however
    many: nothing is called and nothing is kept for later.  Stopping a
    running machine, sending any events and starting it again leaves the
    machine exactly as it was before the [stop]. *)
Theorem events_while_stopped_are_discarded
    (n : nat) (evs : list MachineEvent) (m : @machine V) :
  (running m = false ->
   send_all config code n (run_at n) evs m = Some (Returned tt, m, [])) /\
  (running m = true ->
   bind stop
        (fun _ => bind (send_all config code n (run_at n) evs)
                       (fun _ => start)) m
   = Some (Returned tt, m, [])).
Proof.
  split; [apply send_all_stopped|].
  intros Hr. rewrite (bind_returned _ _ _ _ _ _ (stop_eq m)).
  rewrite (bind_returned _ _ _ _ _ _
             (send_all_stopped n evs (set_running false m) eq_refl)).
  rewrite start_eq. cbn. do 3 f_equal.
  destruct m; cbn in *. subst. reflexivity.
Qed.

End Lifecycle.

(** ** More about one dispatch *)

Section DispatchMore.

Context {V : Type}.
Variable config : @MachineConfig V.
Variable code : listener_id -> @listener V.

Local Abbreviation run_at n := (run config code n).
Local Abbreviation send_at n := (send config code n (run config code n)).
Local Abbreviation notify_at n := (notify code n (run config code n)).
Local Abbreviation action_at n := (run_action config (run config code n)).
Local Abbreviation apply_at n :=
  (apply_transition config code n (run config code n)).
Local Abbreviation filtering ev :=
  (pistachio_filter (candidate config ev) (transitions config)).

(** [send] as the application of the winner. *)
Lemma send_applies n ev m found m1 tr1 w :
  running m = true -> processing m = false ->
  filtering ev (set_processing true m) = Some (Returned found, m1, tr1) ->
  pistachio_sort found by_priority !! 0%nat = Some w ->
  send_at n ev m
  = match apply_at n ev w (set_processing true m) with
    | Some (o, m2, tr2) => Some (o, set_processing false m2, tr1 ++ tr2)
    | None => None
    end.
Proof.
  intros Hr Hp Hf Hw.
  destruct (filter_returned config _ _ _ _ _ Hf) as (-> & _).
  rewrite (send_dispatches config code n ev m Hr Hp). unfold try_finally.
  rewrite (dispatch_applies config code n ev found w _ _ _ Hf Hw).
  destruct (apply_at n ev w (set_processing true m)) as [[[o m2] tr2]|];
    reflexivity.
Qed.

(** [apply_transition] as its action block followed by [notify]. *)
Lemma apply_transition_eq n ev w (m : @machine V) :
  apply_at n ev w m
  = match action_at n ev w (set_state (to w) m) with
    | Some (Returned _, m2, tr2) =>
        match notify_at n m2 with
        | Some (o, m3, tr3) => Some (o, m3, tr2 ++ tr3)
        | None => None
        end
    | Some (Thrown e, m2, tr2) => Some (Thrown e, m2, tr2)
    | None => None
    end.
Proof.
  unfold apply_transition. rewrite bind_modify. unfold bind.
  destruct (action_at n ev w (set_state (to w) m)) as [[[[u|e] m2] tr2]|];
    reflexivity.
Qed.


(** X4.  When the action handler of the winning transition throws, the
    error leaves [send]; the state is already the winner's [to] and stays
    so, the context is the one before the dispatch, the latch is cleared,
    and [send] itself notifies no listener: what it shows ends with the
    handler's own doings.  For a handler that just throws, the machine left
    is the original one with only the state changed. *)
Theorem send_action_error_keeps_new_state
    (n : nat) (ev : MachineEvent) (m : machine)
    (found : list MachineTransition) (m1 : machine) (tr1 : trace)
    (w : MachineTransition) (name : string) (handler : action_handler)
    (e : string) (m2 : machine) (tr2 : trace) :
  running m = true ->
  processing m = false ->
  filtering ev (set_processing true m) = Some (Returned found, m1, tr1) ->
  pistachio_sort found by_priority !! 0%nat = Some w ->
  action w = Some name ->
  name <> EmptyString ->
  lookup_action config name = Some handler ->
  run_at n (option mapping) (handler (params_of m ev))
         (set_state (to w) (set_processing true m))
  = Some (Thrown e, m2, tr2) ->
  send_at n ev m
  = Some (Thrown e, set_processing false m2,
          tr1 ++ ActionCalled name (params_of m ev) :: tr2) /\
  state (set_processing false m2) = to w /\
  context (set_processing false m2) = context m /\
  processing (set_processing false m2) = false /\
  (handler (params_of m ev) = Throw e ->
   set_processing false m2 = set_state (to w) m /\ tr2 = []).
Proof.
  intros Hr Hp Hf Hw Ha Hne Hl Hrun.
  pose proof (run_undisturbed config code n _ _
                (set_state (to w) (set_processing true m)) _ _ _
                eq_refl Hrun) as (Hs2 & Hc2 & _ & _).
  cbn in Hs2, Hc2.
  split; [|split; [exact Hs2|split; [exact Hc2|split; [reflexivity|]]]].
  - rewrite (send_applies n ev m found m1 tr1 w Hr Hp Hf Hw).
    rewrite apply_transition_eq.
    pose proof (run_action_found config code n ev w name handler
                  (set_state (to w) (set_processing true m)) Ha Hne Hl)
      as Hact.
    change (params_of (set_state (to w) (set_processing true m)) ev)
      with (params_of m ev) in Hact.
    rewrite Hrun in Hact.
    change (set_state (to w) (set_state (to w) (set_processing true m)))
      with (set_state (to w) (set_processing true m)).
    rewrite Hact. reflexivity.
  - intros Hbody. rewrite Hbody in Hrun.
    destruct n as [|n]; [discriminate|]. cbn in Hrun.
    injection Hrun as <- <-. split; [|reflexivity].
    destruct m; cbn in *. subst. reflexivity.
Qed.

(** X5.  The notification of a dispatch comes last and carries the new
    values: when the action block of the winning transition has returned
    (there was no action, or its handler returned) and the listeners make
    no call themselves, what [send] shows is the guard calls, then the
    action block, then one call of each registered listener, in
    registration order, with the winner's [to] as state and the context as
    the action left it. *)
Theorem send_notifies_last_with_new_values
    (n : nat) (ev : MachineEvent) (m : machine)
    (found : list MachineTransition) (m1 : machine) (tr1 : trace)
    (w : MachineTransition) (m3 : machine) (tr2 : trace) :
  running m = true ->
  processing m = false ->
  filtering ev (set_processing true m) = Some (Returned found, m1, tr1) ->
  pistachio_sort found by_priority !! 0%nat = Some w ->
  action_at (S n) ev w (set_state (to w) (set_processing true m))
  = Some (Returned tt, m3, tr2) ->
  Forall (fun l => direct (code l (state m3) (context m3) (props m3)))
         (registered (listeners m3)) ->
  length (listeners m3) < S n ->
  send_at (S n) ev m
  = Some (Returned tt, set_processing false m3,
          tr1 ++ tr2 ++ notification code m3) /\
  Forall (fun o => is_guard_call o = true) tr1 /\
  Forall (fun o => is_guard_call o = false) tr2 /\
  state m3 = to w /\
  notification code m3
  = flat_map
      (fun l =>
         ListenerCalled l (to w) (context m3) (props m3) ::
         match code l (to w) (context m3) (props m3) with
         | Throw message => [ConsoleError message]
         | _ => []
         end)
      (registered (listeners m3)).
Proof.
  intros Hr Hp Hf Hw Hact Hd Hb.
  destruct (run_action_inv config code (S n) ev w
              (set_state (to w) (set_processing true m)) _ _ _
              eq_refl Hact) as (Hs & _ & Hg & _).
  cbn in Hs.
  split; [|split; [|split; [exact Hg|split; [exact Hs|]]]].
  - rewrite (send_applies (S n) ev m found m1 tr1 w Hr Hp Hf Hw).
    rewrite apply_transition_eq.
    change (set_state (to w) (set_state (to w) (set_processing true m)))
      with (set_state (to w) (set_processing true m)).
    rewrite Hact, (notify_direct config code n (S n) m3 Hd Hb). reflexivity.
  - destruct (filter_returned config _ _ _ _ _ Hf) as (_ & _ & -> & _).
    apply guard_calls_are_guard_calls.
  - unfold notification, report. rewrite Hs. reflexivity.
Qed.

(** X6.  [matches] and [getState] read the state a dispatch has committed,
    also when [send] threw after committing it: once [send] has come back
    from a dispatch that selected [w], whatever its outcome, [getState]
    returns [w]'s [to] and [matches] is true exactly of the lists that
    contain it (so never of the empty list); both leave the machine as it is
    and call nothing. *)
Theorem matches_reads_committed_state
    (n : nat) (ev : MachineEvent) (m : machine)
    (found : list MachineTransition) (m1 : machine) (tr1 : trace)
    (w : MachineTransition) (o : outcome unit) (m' : machine) (tr : trace)
    (states : list string) :
  running m = true ->
  processing m = false ->
  filtering ev (set_processing true m) = Some (Returned found, m1, tr1) ->
  pistachio_sort found by_priority !! 0%nat = Some w ->
  send_at n ev m = Some (o, m', tr) ->
  getState m' = Some (Returned (to w), m', []) /\
  matches states m' = Some (Returned (bool_decide (to w ∈ states)), m', []) /\
  matches [] m' = Some (Returned false, m', []) /\
  bind getState (fun s => matches [s]) m' = Some (Returned true, m', []).
Proof.
  intros Hr Hp Hf Hw Hsend.
  rewrite (send_applies n ev m found m1 tr1 w Hr Hp Hf Hw) in Hsend.
  destruct (apply_at n ev w (set_processing true m)) as [[[o2 m2] tr2]|]
    eqn:Happly; [|discriminate].
  injection Hsend as <- <- <-.
  apply apply_transition_inv in Happly as (Hs & _); [|reflexivity].
  assert (state (set_processing false m2) = to w) as Hs' by exact Hs.
  unfold getState, matches. rewrite !bind_get, Hs'.
  repeat split.
  rewrite (bind_returned _ _ _ _ _ _ eq_refl), bind_get, Hs'. cbn.
  rewrite bool_decide_eq_true_2 by (apply list_elem_of_here). reflexivity.
Qed.

End DispatchMore.

(** ** [syncProps] *)

Section SyncProps.

Context {V : Type}.
Variable config : @MachineConfig V.
Variable code : listener_id -> @listener V.

Local Abbreviation run_at n := (run config code n).
Local Abbreviation send_at n := (send config code n (run config code n)).
Local Abbreviation filtering ev :=
  (pistachio_filter (candidate config ev) (transitions config)).







Lemma run_send_returned n R ev (k : reply -> @prog V R) m m1 tr1 :
  send_at n ev m = Some (Returned tt, m1, tr1) ->
  run_at (S n) R (Do (CallSend ev) k) m
  = match run_at n R (k RVoid) m1 with
    | Some (o, m2, tr2) => Some (o, m2, tr1 ++ tr2)
    | None => None
    end.
Proof.
  intros Hsend. cbn [run].
  assert (as_reply (perform config code n (run_at n) (CallSend ev)) m
          = Some (Returned RVoid, m1, tr1)) as Hcall.
  { unfold as_reply, try_catch. cbn [perform].
    rewrite (bind_returned _ _ _ _ _ _ Hsend). cbn.
    rewrite app_nil_r. reflexivity. }
  rewrite (bind_returned _ _ _ _ _ _ Hcall). reflexivity.
Qed.

(** X9.  A [send] made by a listener is dispatched when the notification
    comes from [syncProps] on an idle running machine, and dropped when it
    comes from a dispatch.  With one registered listener that sends [ev]
    whenever it is called, and a winner [w] without action for [ev]:
    [syncProps] calls the listener with the old state; its [send] applies
    [w]; the notification of that dispatch calls the listener again, now
    with [w]'s [to], and this time its [send] does nothing.  So [syncProps]
    returns with the state changed to [w]'s [to]. *)
Theorem send_from_listener_during_syncProps
    (n b : nat) (ev : MachineEvent) (newProps : mapping) (m : @machine V)
    (l : listener_id) (found : list MachineTransition) (m1 : machine)
    (tr1 : trace) (w : MachineTransition) :
  running m = true ->
  processing m = false ->
  listeners m = [Some l] ->
  (forall s c p, code l s c p = Do (CallSend ev) (fun _ => Ret tt)) ->
  filtering ev
    (set_processing true
       (set_props (pistachio_merge (props m) newProps) m))
  = Some (Returned found, m1, tr1) ->
  pistachio_sort found by_priority !! 0%nat = Some w ->
  no_action w ->
  syncProps code (S (S b)) (run_at (S (S (S n)))) newProps m
  = Some (Returned tt,
          set_state (to w)
            (set_props (pistachio_merge (props m) newProps) m),
          ListenerCalled l (state m) (context m)
                         (pistachio_merge (props m) newProps)
          :: tr1
          ++ [ListenerCalled l (to w) (context m)
                             (pistachio_merge (props m) newProps)]).
Proof.
  intros Hr Hp Hls Hcode Hf Hw Hna.
  set (mp := set_props (pistachio_merge (props m) newProps) m) in *.
  set (mc := set_state (to w) (set_processing true mp)).
  (* the notification of the inner dispatch *)
  assert (notify code (S (S n)) (run_at (S (S n))) mc
          = Some (Returned tt, mc,
                  [ListenerCalled l (to w) (context m)
                                  (pistachio_merge (props m) newProps)]))
    as Hinner.
  { unfold notify.
    assert (call_listener code (run_at (S (S n))) l mc
            = Some (Returned tt, mc,
                    [ListenerCalled l (to w) (context m)
                                    (pistachio_merge (props m) newProps)]))
      as Hcall.
    { rewrite call_listener_eq, Hcode.
      rewrite (nested_send_is_dropped config code (S n) unit ev _ mc eq_refl).
      reflexivity. }
    rewrite (notify_from_returned code _ (S n) 0 mc l mc _
               ltac:(cbn; rewrite Hls; reflexivity) Hcall).
    rewrite (notify_from_end code _ n 1 mc
               ltac:(cbn; rewrite Hls; reflexivity)).
    reflexivity. }
  (* the inner dispatch *)
  assert (send_at (S (S n)) ev mp
          = Some (Returned tt, set_state (to w) mp,
                  tr1 ++ [ListenerCalled l (to w) (context m)
                                         (pistachio_merge (props m)
                                                          newProps)]))
    as Hsend.
  { rewrite (send_applies config code (S (S n)) ev mp found m1 tr1 w
               Hr Hp Hf Hw).
    rewrite apply_transition_eq.
    rewrite (run_action_none config code (S (S n)) ev w _ Hna).
    change (set_state (to w) (set_processing true mp)) with mc.
    rewrite Hinner. cbn [app]. do 3 f_equal.
    subst mc mp. destruct m; cbn in *. subst. reflexivity. }
  (* the pass of syncProps *)
  unfold syncProps. rewrite bind_modify. fold mp. unfold notify.
  assert (call_listener code (run_at (S (S (S n)))) l mp
          = Some (Returned tt, set_state (to w) mp,
                  ListenerCalled l (state m) (context m)
                                 (pistachio_merge (props m) newProps)
                  :: tr1
                  ++ [ListenerCalled l (to w) (context m)
                                     (pistachio_merge (props m) newProps)]))
    as Hcall.
  { rewrite call_listener_eq, Hcode.
    rewrite (run_send_returned (S (S n)) unit ev _ mp _ _ Hsend).
    cbn. rewrite app_nil_r. reflexivity. }
  rewrite (notify_from_returned code _ (S b) 0 mp l _ _
             ltac:(cbn; rewrite Hls; reflexivity) Hcall).
  rewrite (notify_from_end code _ b 1 (set_state (to w) mp)
             ltac:(cbn; rewrite Hls; reflexivity)).
  rewrite app_nil_r. reflexivity.
Qed.

End SyncProps.

(** ** The [Set] of listeners *)

Section ListenerSet.

Context {V : Type}.
Variable config : @MachineConfig V.
Variable code : listener_id -> @listener V.

Local Abbreviation run_at n := (run config code n).
Local Abbreviation send_at n := (send config code n (run config code n)).
Local Abbreviation notify_at n := (notify code n (run config code n)).
Local Abbreviation action_at n := (run_action config (run config code n)).
Local Abbreviation apply_at n :=
  (apply_transition config code n (run config code n)).

(** *** A property of the [Set] that [add] and [delete] keep is kept by
    everything *)

Section Kept.

Variable P : list (option listener_id) -> Prop.
Hypothesis P_add : forall l ls, P ls -> P (Set_add l ls).
Hypothesis P_delete : forall l ls, P ls -> P (Set_delete l ls).

Local Abbreviation keeps n :=
  (forall R (p : @prog V R) m o m' tr,
      P (listeners m) -> run_at n R p m = Some (o, m', tr) ->
      P (listeners m')).








End Kept.

End ListenerSet.

Section ListenerSetFacts.

Context {V : Type}.
Variable config : @MachineConfig V.
Variable code : listener_id -> @listener V.

Local Abbreviation run_at n := (run config code n).

Lemma registered_app (ls1 ls2 : list (option listener_id)) :
  registered (ls1 ++ ls2) = registered ls1 ++ registered ls2.
Proof. unfold registered. apply omap_app. Qed.

Lemma Set_add_present l (ls : list (option listener_id)) :
  In l (registered ls) -> Set_add l ls = ls.
Proof.
  intros Hin%registered_elem%list_elem_of_In. unfold Set_add, Set_has.
  rewrite bool_decide_eq_true_2 by exact Hin. reflexivity.
Qed.

Lemma Set_add_absent l (ls : list (option listener_id)) :
  ~ In l (registered ls) ->
  Set_add l ls = ls ++ [Some l] /\
  registered (Set_add l ls) = registered ls ++ [l].
Proof.
  intros Hnot. unfold Set_add, Set_has.
  rewrite bool_decide_eq_false_2.
  - split; [reflexivity|]. rewrite registered_app. reflexivity.
  - intros Hin%list_elem_of_In%registered_elem. contradiction.
Qed.


Lemma Set_delete_NoDup l (ls : list (option listener_id)) :
  NoDup (registered ls) -> NoDup (registered (Set_delete l ls)).
Proof.
  intros Hnd. rewrite Set_delete_registered.
  apply NoDup_ListNoDup, List.NoDup_filter, NoDup_ListNoDup, Hnd.
Qed.





Lemma registered_distinct (ls : list (option listener_id)) :
  NoDup (registered ls) ->
  forall i j l,
    ls !! i = Some (Some l) -> ls !! j = Some (Some l) -> i = j.
Proof.
  induction ls as [|entry ls IH]; intros Hnd i j l Hi Hj; [discriminate|].
  assert (forall k, ls !! k = Some (Some l) -> l ∈ registered ls) as Hreg.
  { intros k Hk. apply list_elem_of_In, registered_elem, list_elem_of_In.
    eapply list_elem_of_lookup_2, Hk. }
  assert (NoDup (registered ls)) as Hnd'.
  { destruct entry; [|exact Hnd].
    rewrite registered_cons_some in Hnd. apply NoDup_cons in Hnd. apply Hnd. }
  destruct i as [|i], j as [|j]; cbn in Hi, Hj.
  - reflexivity.
  - exfalso. injection Hi as ->. rewrite registered_cons_some in Hnd.
    apply NoDup_cons in Hnd as [Hnot _]. apply Hnot, (Hreg j Hj).
  - exfalso. injection Hj as ->. rewrite registered_cons_some in Hnd.
    apply NoDup_cons in Hnd as [Hnot _]. apply Hnot, (Hreg i Hi).
  - f_equal. apply (IH Hnd' i j l Hi Hj).
Qed.

(** Deleting the listener of entry [i] leaves a hole at [i] and nothing
    else. *)
Lemma Set_delete_at (ls : list (option listener_id)) i l :
  NoDup (registered ls) -> ls !! i = Some (Some l) ->
  Set_delete l ls = <[i := None]> ls.
Proof.
  intros Hnd Hi. apply list_eq. intros j. unfold Set_delete.
  rewrite list_lookup_fmap.
  destruct (decide (i = j)) as [<-|Hne].
  - rewrite Hi, list_lookup_insert_eq by (eapply lookup_lt_Some, Hi).
    cbn. rewrite bool_decide_eq_true_2 by reflexivity. reflexivity.
  - rewrite list_lookup_insert_ne by exact Hne.
    destruct (ls !! j) as [entry|] eqn:Hj; [|reflexivity]. cbn.
    destruct (bool_decide_reflect (entry = Some l)) as [->|_];
      [|reflexivity].
    exfalso. apply Hne. apply (registered_distinct ls Hnd i j l Hi Hj).
Qed.

Lemma set_listeners_same (m : @machine V) : set_listeners (listeners m) m = m.
Proof. destruct m; reflexivity. Qed.

Lemma run_unsubscribes_itself n l (m : @machine V) :
  run_at (S (S n)) unit (Do (CallUnsubscribe l) (fun _ => Ret tt)) m
  = Some (Returned tt, set_listeners (Set_delete l (listeners m)) m, []).
Proof.
  cbn [run].
  assert (as_reply (perform config code (S n) (run_at (S n))
                            (CallUnsubscribe l)) m
          = Some (Returned (RBool (Set_has l (listeners m))),
                  set_listeners (Set_delete l (listeners m)) m, []))
    as Hcall.
  { unfold as_reply, try_catch. cbn [perform].
    rewrite (bind_returned _ _ _ _ _ _ (unsubscribe_eq l m)). reflexivity. }
  rewrite (bind_returned _ _ _ _ _ _ Hcall). reflexivity.
Qed.

(** A pass over listeners each of which either unsubscribes itself or makes
    no call, from entry [i] on. *)
Lemma notify_from_once n (once : listener_id -> bool) fuel : forall i m,
  NoDup (registered (listeners m)) ->
  (forall l, In l (registered (drop i (listeners m))) ->
             if once l then unsubscribes_itself code l
             else forall s c p, direct (code l s c p)) ->
  length (listeners m) - i < fuel ->
  notify_from code (run_at (S (S n))) fuel i m
  = Some (Returned tt,
          set_listeners (take i (listeners m)
                         ++ (after_pass once <$> drop i (listeners m))) m,
          flat_map (report_once code once m)
                   (registered (drop i (listeners m)))).
Proof.
  induction fuel as [|fuel IH]; intros i m Hnd Hcode Hfuel; [lia|].
  destruct (listeners m !! i) as [[l|]|] eqn:Hi.
  - pose proof (lookup_lt_Some _ _ _ Hi) as Hlt.
    assert (In l (registered (drop i (listeners m)))) as Hin.
    { rewrite (drop_S _ _ _ Hi), registered_cons_some. left. reflexivity. }
    pose proof (Hcode l Hin) as Hl.
    assert (forall l', In l' (registered (drop (S i) (listeners m))) ->
                       In l' (registered (drop i (listeners m)))) as Hsub.
    { intros l' Hl'. rewrite (drop_S _ _ _ Hi), registered_cons_some.
      right. exact Hl'. }
    rewrite (drop_S _ _ _ Hi), registered_cons_some. cbn [flat_map fmap list_fmap].
    unfold report_once at 1. unfold after_pass at 1.
    destruct (once l) eqn:Honce.
    + (* the listener unsubscribes itself *)
      assert (call_listener code (run_at (S (S n))) l m
              = Some (Returned tt,
                      set_listeners (<[i := None]> (listeners m)) m,
                      [ListenerCalled l (state m) (context m) (props m)]))
        as Hcall.
      { rewrite call_listener_eq, Hl, run_unsubscribes_itself.
        rewrite (Set_delete_at _ _ _ Hnd Hi). reflexivity. }
      rewrite (notify_from_returned _ _ _ _ _ _ _ _ Hi Hcall).
      set (m1 := set_listeners (<[i := None]> (listeners m)) m).
      assert (listeners m1 = <[i := None]> (listeners m)) as Hls1
        by reflexivity.
      rewrite (IH (S i) m1).
      * rewrite Hls1, drop_insert_lt by lia.
        rewrite (take_S_r _ _ None)
          by (apply list_lookup_insert_eq; exact Hlt).
        rewrite take_insert_ge by lia.
        rewrite <- app_assoc. reflexivity.
      * rewrite Hls1, <- (Set_delete_at _ _ _ Hnd Hi).
        apply Set_delete_NoDup, Hnd.
      * rewrite Hls1, drop_insert_lt by lia.
        intros l' Hl'. apply Hcode, Hsub, Hl'.
      * rewrite Hls1, length_insert. lia.
    + (* the listener makes no call *)
      pose proof (call_listener_direct config code (S n) l m (Hl _ _ _))
        as Hcall.
      unfold report.
      destruct (code l (state m) (context m) (props m)) as [[]|e|c k] eqn:Hb.
      * rewrite (notify_from_returned _ _ _ _ _ _ _ _ Hi Hcall).
        rewrite (IH (S i) m Hnd) by
          (first [lia|intros l' Hl'; apply Hcode, Hsub, Hl']).
        rewrite (take_S_r _ _ _ Hi), <- app_assoc. reflexivity.
      * rewrite (notify_from_thrown _ _ _ _ _ _ _ _ _ Hi Hcall).
        rewrite (IH (S i) m Hnd) by
          (first [lia|intros l' Hl'; apply Hcode, Hsub, Hl']).
        rewrite (take_S_r _ _ _ Hi), <- app_assoc. reflexivity.
      * exfalso. pose proof (Hl (state m) (context m) (props m)) as Hd.
        rewrite Hb in Hd. exact Hd.
  - pose proof (lookup_lt_Some _ _ _ Hi) as Hlt.
    rewrite (notify_from_hole _ _ _ _ _ Hi), (drop_S _ _ _ Hi).
    rewrite registered_cons_none. cbn [fmap list_fmap after_pass].
    rewrite (IH (S i) m Hnd).
    + rewrite (take_S_r _ _ _ Hi), <- app_assoc. reflexivity.
    + intros l' Hl'. apply Hcode.
      rewrite (drop_S _ _ _ Hi), registered_cons_none. exact Hl'.
    + lia.
  - rewrite (notify_from_end _ _ _ _ _ Hi).
    pose proof (proj1 (lookup_ge_None _ _) Hi) as Hge.
    rewrite drop_ge, take_ge by exact Hge. cbn. rewrite app_nil_r.
    rewrite set_listeners_same. reflexivity.
Qed.

Lemma registered_after_pass (once : listener_id -> bool)
    (ls : list (option listener_id)) :
  registered (after_pass once <$> ls)
  = List.filter (fun l => negb (once l)) (registered ls).
Proof.
  induction ls as [|[l|] ls IH]; [reflexivity| |exact IH].
  cbn [fmap list_fmap after_pass]. rewrite registered_cons_some.
  cbn [List.filter].
  destruct (once l); cbn [negb].
  - rewrite registered_cons_none. exact IH.
  - rewrite registered_cons_some. f_equal. exact IH.
Qed.

(** X11.  Unsubscribing from inside a listener does not disturb the pass in
    progress.  When each registered listener either unsubscribes itself when
    called (those marked by [once]) or makes no call, a notification pass
    calls every listener registered at its start exactly in registration
    order, each with the same state, context and props, skipping and
    repeating none; it returns normally, and afterwards exactly the
    listeners that did not unsubscribe are registered, in the same order. *)
Theorem unsubscribing_listeners_do_not_disturb_the_pass
    (n bound : nat) (once : listener_id -> bool) (m : @machine V) :
  NoDup (registered (listeners m)) ->
  (forall l, In l (registered (listeners m)) ->
             if once l then unsubscribes_itself code l
             else forall s c p, direct (code l s c p)) ->
  length (listeners m) < bound ->
  notify code bound (run_at (S (S n))) m
  = Some (Returned tt,
          set_listeners (after_pass once <$> listeners m) m,
          flat_map (report_once code once m) (registered (listeners m))) /\
  registered (after_pass once <$> listeners m)
  = List.filter (fun l => negb (once l)) (registered (listeners m)) /\
  List.filter is_listener_call
              (flat_map (report_once code once m) (registered (listeners m)))
  = map (fun l => ListenerCalled l (state m) (context m) (props m))
        (registered (listeners m)).
Proof.
  intros Hnd Hcode Hb. split; [|split].
  - unfold notify.
    rewrite (notify_from_once n once bound 0 m Hnd) by
      (first [lia|rewrite drop_0; exact Hcode]).
    rewrite drop_0. reflexivity.
  - apply registered_after_pass.
  - clear. induction (registered (listeners m)) as [|l ls IH]; [reflexivity|].
    cbn [flat_map map]. rewrite List.filter_app, IH. f_equal.
    unfold report_once, report.
    destruct (once l); [reflexivity|].
    destruct (code l (state m) (context m) (props m)); reflexivity.
Qed.

(** X12.  The order of notification is the order of registration, and
    registering again does not renew it: [subscribe] of a registered
    listener (without the immediate call) leaves the machine exactly as it
    is, while [unsubscribe] followed by [subscribe] moves the listener
    behind all the others, which keep their order. *)
Theorem resubscribing_moves_listener_last
    (run : forall R : Type, @prog V R -> @M V R)
    (l : listener_id) (m : @machine V) :
  (In l (registered (listeners m)) ->
   subscribe code run l (Some (Options (Some false))) m
   = Some (Returned tt, m, [])) /\
  bind (unsubscribe l)
       (fun _ => subscribe code run l (Some (Options (Some false)))) m
  = Some (Returned tt,
          set_listeners (Set_delete l (listeners m) ++ [Some l]) m, []) /\
  registered (Set_delete l (listeners m) ++ [Some l])
  = List.filter (fun l' => negb (Nat.eqb l' l)) (registered (listeners m))
    ++ [l].
Proof.
  assert (~ In l (registered (Set_delete l (listeners m)))) as Hgone.
  { rewrite Set_delete_registered.
    intros [_ Hl]%List.filter_In. rewrite Nat.eqb_refl in Hl. discriminate. }
  split; [|split].
  - intros Hin. rewrite subscribe_not_immediate, (Set_add_present l _ Hin).
    rewrite set_listeners_same. reflexivity.
  - rewrite (bind_returned _ _ _ _ _ _ (unsubscribe_eq l m)).
    rewrite subscribe_not_immediate. cbn [listeners set_listeners].
    destruct (Set_add_absent l _ Hgone) as [-> _]. reflexivity.
  - rewrite registered_app, Set_delete_registered. reflexivity.
Qed.

End ListenerSetFacts.

(** ** The objects of the configuration *)

Section ConfigObjects.

Context {V : Type}.

Lemma store_create_given (given : loc) (given_props : option loc)
    (s : @store V) (o : object) :
  heap s !! given = Some o ->
  context_ref (store_create (Some given) given_props s) = given /\
  heap (store_create (Some given) given_props s) !! given = Some o.
Proof.
  intros Hg. unfold store_create. destruct given_props as [lp|]; cbn.
  - auto.
  - split; [reflexivity|]. rewrite lookup_insert_ne; [exact Hg|].
    intros Heq. pose proof (is_fresh (dom (heap s))) as Hf.
    apply not_elem_of_dom in Hf. congruence.
Qed.

Lemma fresh_is_new (s : @store V) (l : loc) (o : object) :
  heap s !! l = Some o -> l <> fresh (dom (heap s)).
Proof.
  intros Hl Heq. pose proof (is_fresh (dom (heap s))) as Hf.
  apply not_elem_of_dom in Hf. congruence.
Qed.

(** X13.  [createMachine] does not copy [config.context]: the variable
    [context] is bound to the caller's own object.  As long as no action
    result has been merged, a write the caller makes to that object (it is
    not frozen) is a write to the machine's context, and the next snapshot
    shows it; a snapshot taken before the write does not.  Once a
    transition has merged an action result, [context] is a new object and
    writes to the caller's object no longer reach it. *)
Theorem config_context_is_shared_until_first_merge
    (given : loc) (given_props : option loc) (s : @store V) (o : object)
    (key : string) (value : V) :
  heap s !! given = Some o ->
  frozen o = false ->
  let s0 := store_create (Some given) given_props s in
  context_ref s0 = given /\
  (let before := store_getContext s0 in
   exists s1,
     assign given key value before.2 = (Returned tt, s1) /\
     read (context_ref s1) s1 = <[key := value]> (fields o) /\
     read (store_getContext s1).1 (store_getContext s1).2
     = <[key := value]> (fields o) /\
     read before.1 s1 = fields o) /\
  (forall partial,
      let merged := store_merge_context partial s0 in
      context_ref merged <> given /\
      exists s1,
        assign given key value merged = (Returned tt, s1) /\
        read (context_ref s1) s1 = read (context_ref merged) merged /\
        read (context_ref s1) s1 = spread2 (fields o) partial).
Proof.
  intros Hg Hfrozen s0.
  destruct (store_create_given given given_props s o Hg) as [Hc H0].
  fold s0 in Hc, H0.
  pose proof (fresh_is_new s0 given o H0) as Hnew.
  assert (read given s0 = fields o) as Hread
    by (unfold read; rewrite H0; reflexivity).
  split; [exact Hc|]. split.
  - intros before.
    destruct (snapshot_spec (context_ref s0) s0)
      as (_ & Hsnap & Hcr & _ & Hother).
    change ((freeze (fresh (dom (heap s0)))
               (alloc (Object (read (context_ref s0) s0) false) s0).2).2)
      with before.2 in Hsnap, Hcr, Hother.
    assert (heap before.2 !! given = Some o) as Hb
      by (rewrite (Hother given Hnew); exact H0).
    unfold assign. rewrite Hb, Hfrozen.
    eexists. split; [reflexivity|].
    assert (context_ref before.2 = given) as Hcb by congruence.
    split; [|split].
    + cbn [context_ref]. rewrite Hcb. unfold read. cbn [heap].
      rewrite lookup_insert_eq. reflexivity.
    + rewrite store_getContext_value. unfold pistachio_freeze.
      cbn [context_ref]. rewrite Hcb. unfold read. cbn [heap].
      rewrite lookup_insert_eq. reflexivity.
    + unfold read. cbn [heap].
      rewrite lookup_insert_ne by (intros Heq; apply Hnew; exact Heq).
      change before.1 with (fresh (dom (heap s0))).
      rewrite Hsnap, Hc. exact Hread.
  - intros partial merged.
    assert (context_ref merged = fresh (dom (heap s0))) as Hcm
      by reflexivity.
    assert (heap merged !! given = Some o) as Hm.
    { change (heap merged)
        with (<[fresh (dom (heap s0)) :=
                  Object (partial ∪ read (context_ref s0) s0) false]>
                (heap s0)).
      rewrite lookup_insert_ne
        by (intros Heq; apply Hnew; symmetry; exact Heq).
      exact H0. }
    split; [rewrite Hcm; intros Heq; apply Hnew; congruence|].
    unfold assign. rewrite Hm, Hfrozen. eexists. split; [reflexivity|].
    assert (read (context_ref merged) merged = spread2 (fields o) partial)
      as Hmerged.
    { unfold merged. rewrite store_merge_context_value, Hc, Hread.
      reflexivity. }
    split; [|rewrite <- Hmerged];
      (unfold read at 1; cbn [heap context_ref];
       rewrite lookup_insert_ne by (rewrite Hcm; exact Hnew);
       reflexivity).
Qed.

End ConfigObjects.

(** ** Between two calls the machine is idle, in a declared state *)

Section Idle.

Context {V : Type}.
Variable config : @MachineConfig V.
Variable code : listener_id -> @listener V.

Local Abbreviation run_at n := (run config code n).
Local Abbreviation send_at n := (send config code n (run config code n)).
Local Abbreviation apply_at n :=
  (apply_transition config code n (run config code n)).
Local Abbreviation idle m :=
  (processing m = false /\ declared config (state m)).
Local Abbreviation stays_idle n :=
  (forall R (p : @prog V R) m o m' tr,
      idle m -> run_at n R p m = Some (o, m', tr) -> idle m').

Lemma winner_is_declared (found : list MachineTransition) w :
  (forall t, In t found -> In t (transitions config)) ->
  pistachio_sort found by_priority !! 0%nat = Some w ->
  declared config (to w).
Proof.
  intros Hsub Hw. right. apply in_map, Hsub.
  destruct found as [|t rest]; [discriminate|].
  destruct (sort_by_priority_first (t :: rest) ltac:(discriminate))
    as (before & w' & after & Hsplit & Hw' & _).
  rewrite Hw' in Hw. injection Hw as <-.
  rewrite Hsplit. apply in_or_app. right. left. reflexivity.
Qed.

Lemma call_listener_idle n l m o m' tr :
  stays_idle n -> idle m ->
  call_listener code (run_at n) l m = Some (o, m', tr) -> idle m'.
Proof.
  intros Hk HP. rewrite call_listener_eq.
  destruct (run_at n unit _ m) as [[[o1 m1] tr1]|] eqn:Hrun; [|discriminate].
  intros [= <- <- <-]. eapply Hk; eassumption.
Qed.

Lemma notify_from_idle n fuel : forall i m o m' tr,
  stays_idle n -> idle m ->
  notify_from code (run_at n) fuel i m = Some (o, m', tr) -> idle m'.
Proof.
  induction fuel as [|fuel IH]; intros i m o m' tr Hk HP; [discriminate|].
  destruct (listeners m !! i) as [[l|]|] eqn:Hi.
  - destruct (call_listener code (run_at n) l m) as [[[[[]|e] m1] tr1]|]
      eqn:Hcall.
    + rewrite (notify_from_returned _ _ _ _ _ _ _ _ Hi Hcall).
      destruct (notify_from code (run_at n) fuel (S i) m1)
        as [[[o2 m2] tr2]|] eqn:Hn; [|discriminate].
      intros [= <- <- <-]. eapply IH; [exact Hk| |exact Hn].
      eapply call_listener_idle; eassumption.
    + rewrite (notify_from_thrown _ _ _ _ _ _ _ _ _ Hi Hcall).
      destruct (notify_from code (run_at n) fuel (S i) m1)
        as [[[o2 m2] tr2]|] eqn:Hn; [|discriminate].
      intros [= <- <- <-]. eapply IH; [exact Hk| |exact Hn].
      eapply call_listener_idle; eassumption.
    + cbn [notify_from]. rewrite bind_get, Hi. unfold bind, try_catch.
      rewrite Hcall. discriminate.
  - rewrite (notify_from_hole _ _ _ _ _ Hi). apply IH; assumption.
  - rewrite (notify_from_end _ _ _ _ _ Hi). intros [= <- <- <-]. exact HP.
Qed.

Lemma send_idle n ev m o m' tr :
  idle m -> send_at n ev m = Some (o, m', tr) -> idle m'.
Proof.
  intros [Hp HQ].
  destruct (running m) eqn:Hr;
    [|rewrite (send_dropped config code n (run_at n) ev m (or_introl Hr));
      intros [= <- <- <-]; split; assumption].
  rewrite (send_dispatches config code n ev m Hr Hp). unfold try_finally.
  destruct (first_missing_or_none config ev (transitions config)
              (set_processing true m))
    as [Hall|(before & t & after & Hsplit & Hb & Ht)].
  - pose proof (filter_all_registered config ev _ _ Hall) as Hf.
    destruct (List.filter (passes config (set_processing true m) ev)
                          (transitions config)) as [|t rest] eqn:Hfound.
    + rewrite (dispatch_nothing config code n ev _ _ _ Hf).
      intros [= <- <- <-]. split; [reflexivity|exact HQ].
    + destruct (sort_by_priority_first (t :: rest) ltac:(discriminate))
        as (_ & w & _ & _ & Hw & _).
      rewrite (dispatch_applies config code n ev _ w _ _ _ Hf Hw).
      destruct (apply_at n ev w (set_processing true m))
        as [[[o2 m2] tr2]|] eqn:Happly; [|discriminate].
      intros [= <- <- <-].
      apply apply_transition_inv in Happly as (Hs & _); [|reflexivity].
      split; [reflexivity|]. cbn [state set_processing]. rewrite Hs.
      apply (winner_is_declared (t :: rest)); [|exact Hw].
      intros t' Hin. rewrite <- Hfound in Hin.
      apply List.filter_In in Hin as [Hin _]. exact Hin.
  - destruct (filter_first_stop config ev before t after
                (set_processing true m) Hb Ht)
      as (error & _ & Hthrown).
    rewrite <- Hsplit in Hthrown.
    rewrite (dispatch_fails config code n ev _ _ _ _ Hthrown).
    intros [= <- <- <-]. split; [reflexivity|exact HQ].
Qed.

Lemma perform_idle n c m o m' tr :
  stays_idle n -> idle m ->
  perform config code n (run_at n) c m = Some (o, m', tr) -> idle m'.
Proof.
  intros Hk HP.
  destruct c; cbn [perform]; intros [o' Hop]%bind_then_ret; revert Hop.
  - rewrite start_eq. intros [= <- <- <-]. exact HP.
  - rewrite stop_eq. intros [= <- <- <-]. exact HP.
  - apply send_idle; assumption.
  - unfold subscribe. rewrite bind_modify.
    destruct (match options with
              | Some o0 => default true (immediate o0)
              | None => true
              end).
    + apply call_listener_idle; [exact Hk|exact HP].
    + intros [= <- <- <-]. exact HP.
  - rewrite unsubscribe_eq. intros [= <- <- <-]. exact HP.
  - unfold matches. rewrite bind_get. intros [= <- <- <-]. exact HP.
  - unfold syncProps, notify. rewrite bind_modify.
    apply notify_from_idle; assumption.
  - unfold getState. rewrite bind_get. intros [= <- <- <-]. exact HP.
  - unfold getContext. rewrite bind_get. intros [= <- <- <-]. exact HP.
  - unfold getProps. rewrite bind_get. intros [= <- <- <-]. exact HP.
Qed.

Lemma run_idle n : stays_idle n.
Proof.
  induction n as [|n IH]; intros R p m o m' tr HP; [discriminate|].
  destruct p as [r|e|c k]; cbn [run].
  - intros [= <- <- <-]. exact HP.
  - intros [= <- <- <-]. exact HP.
  - intros [(e & Hc & _)|(a & m1 & tr1 & tr2 & Hc & Hk & ->)]%bind_inv.
    + exfalso. unfold as_reply, try_catch in Hc.
      destruct (perform config code n (run_at n) c m)
        as [[[[u|e'] m2] tr0]|]; discriminate.
    + eapply IH; [|exact Hk].
      unfold as_reply, try_catch in Hc.
      destruct (perform config code n (run_at n) c m)
        as [[[[u|e'] m2] tr0]|] eqn:Hperf; try discriminate.
      * injection Hc as <- <- <-.
        eapply perform_idle; [exact IH|exact HP|exact Hperf].
      * cbn in Hc. injection Hc as <- <- <-.
        eapply perform_idle; [exact IH|exact HP|exact Hperf].
Qed.

(** X14.  Between two calls of the handle the machine is idle and in a
    declared state.  A new machine has the latch clear and is in the initial
    state; and from a machine with the latch clear in the initial state or
    the target of a transition, every call of the handle that comes back,
    returning or throwing, whatever the actions and listeners it runs do
    with the handle meanwhile, leaves the latch clear again and the machine
    in the initial state or the target of a transition.  So no call leaves
    the machine stuck in a dispatch, and it is never in a state that the
    configuration does not name. *)
Theorem handle_calls_leave_machine_idle_in_declared_state
    (n : nat) (c : call) (m : @machine V) (o : outcome reply)
    (m' : machine) (tr : trace) :
  processing m = false ->
  declared config (state m) ->
  perform config code n (run_at n) c m = Some (o, m', tr) ->
  (processing m' = false /\ declared config (state m')) /\
  (processing (createMachine config) = false /\
   declared config (state (createMachine config))) /\
  (forall k R (p : @prog V R) o2 m2 tr2,
      run_at k R p m' = Some (o2, m2, tr2) ->
      processing m2 = false /\ declared config (state m2)).
Proof.
  intros Hp HQ Hperf.
  assert (idle m') as Hidle
    by (eapply perform_idle; [apply run_idle|split; eassumption|exact Hperf]).
  split; [exact Hidle|]. split; [split; [reflexivity|left; reflexivity]|].
  intros k R p o2 m2 tr2 Hrun. eapply run_idle; eassumption.
Qed.

End Idle.

(** ** Subscribing during a notification pass *)

Section SubscribeInPass.

Context {V : Type}.
Variable config : @MachineConfig V.
Variable code : listener_id -> @listener V.

Local Abbreviation run_at n := (run config code n).

Lemma report_set_listeners ls (m : @machine V) l :
  report code (set_listeners ls m) l = report code m l.
Proof. reflexivity. Qed.

Lemma run_do n R c (k : reply -> @prog V R) m :
  run_at (S n) R (Do c k) m
  = bind (as_reply (perform config code n (run_at n) c))
         (fun answer => run_at n R (k answer)) m.
Proof. reflexivity. Qed.

(** X15.  A listener subscribed during a notification pass is visited by
    that same pass.  With one registered listener [l] that subscribes
    another function [other] (not registered, making no call itself) by
    [subscribe(other)] when called: the pass calls [l]; [subscribe] adds
    [other] to the [Set] and calls it at once; and the iteration, which
    reads the [Set] as it goes, then reaches the new entry and calls [other]
    a second time.  So [other] is called twice in the pass in which it was
    subscribed, with the same values, and what it throws is written to
    [console.error] both times; the pass returns with both registered. *)
Theorem listener_subscribed_in_pass_is_called_twice
    (n bound : nat) (l other : listener_id) (m : @machine V) :
  listeners m = [Some l] ->
  other <> l ->
  subscribes code l other ->
  direct (code other (state m) (context m) (props m)) ->
  notify code (S (S (S bound))) (run_at (S (S (S n)))) m
  = Some (Returned tt, set_listeners [Some l; Some other] m,
          ListenerCalled l (state m) (context m) (props m)
          :: report code m other ++ report code m other) /\
  calls_of other
    (ListenerCalled l (state m) (context m) (props m)
     :: report code m other ++ report code m other) = 2 /\
  calls_of l
    (ListenerCalled l (state m) (context m) (props m)
     :: report code m other ++ report code m other) = 1.
Proof.
  intros Hls Hne Hsub Hd.
  set (m1 := set_listeners [Some l; Some other] m).
  assert (Set_add other (listeners m) = [Some l; Some other]) as Hadd.
  { rewrite Hls. unfold Set_add, Set_has.
    rewrite bool_decide_eq_false_2; [reflexivity|].
    intros Hin. apply list_elem_of_singleton in Hin. congruence. }
  assert (call_listener code (run_at (S (S n))) other m1
          = Some (match code other (state m) (context m) (props m) with
                  | Throw e => Thrown e
                  | _ => Returned tt
                  end, m1,
                  [ListenerCalled other (state m) (context m) (props m)]))
    as Hother by (apply (call_listener_direct config code (S n) other m1 Hd)).
  assert (call_listener code (run_at (S (S n))) other m1
          = Some (match code other (state m) (context m) (props m) with
                  | Throw e => Thrown e
                  | _ => Returned tt
                  end, m1,
                  [ListenerCalled other (state m) (context m) (props m)]) ->
          subscribe code (run_at (S (S n))) other None m
          = Some (match code other (state m) (context m) (props m) with
                  | Throw e => Thrown e
                  | _ => Returned tt
                  end, m1,
                  [ListenerCalled other (state m) (context m) (props m)]))
    as Hsubscribe.
  { intros H. unfold subscribe. rewrite bind_modify, Hadd. exact H. }
  specialize (Hsubscribe Hother).
  (* the call of [l] *)
  assert (call_listener code (run_at (S (S (S n)))) l m
          = Some (match code other (state m) (context m) (props m) with
                  | Throw e => Thrown e
                  | _ => Returned tt
                  end, m1,
                  ListenerCalled l (state m) (context m) (props m)
                  :: [ListenerCalled other (state m) (context m) (props m)]))
    as Hl.
  { rewrite call_listener_eq, Hsub, run_do.
    assert (as_reply (perform config code (S (S n)) (run_at (S (S n)))
                              (CallSubscribe other None)) m
            = Some (Returned
                      match code other (state m) (context m) (props m) with
                      | Throw e => RThrown e
                      | _ => RVoid
                      end, m1,
                    [ListenerCalled other (state m) (context m) (props m)]))
      as Hreply.
    { unfold as_reply, try_catch. cbn [perform]. unfold bind.
      rewrite Hsubscribe.
      destruct (code other (state m) (context m) (props m)) as [[]|e|c k];
        [reflexivity|reflexivity|destruct Hd]. }
    rewrite (bind_returned _ _ _ _ _ _ Hreply).
    destruct (code other (state m) (context m) (props m)) as [[]|e|c k];
      [reflexivity|reflexivity|destruct Hd]. }
  (* the second visit of [other] *)
  assert (call_listener code (run_at (S (S (S n)))) other m1
          = Some (match code other (state m) (context m) (props m) with
                  | Throw e => Thrown e
                  | _ => Returned tt
                  end, m1,
                  [ListenerCalled other (state m) (context m) (props m)]))
    as Hagain
    by (apply (call_listener_direct config code (S (S n)) other m1 Hd)).
  assert (notify_from code (run_at (S (S (S n)))) (S bound) 2 m1
          = Some (Returned tt, m1, [])) as Hend
    by (apply notify_from_end; reflexivity).
  refine (conj _ (conj _ _)).
  - unfold notify, report.
    destruct (code other (state m) (context m) (props m)) as [[]|e|c k];
      [| |destruct Hd].
    + rewrite (notify_from_returned code _ _ 0 m l m1 _
                 ltac:(rewrite Hls; reflexivity) Hl).
      rewrite (notify_from_returned code _ _ 1 m1 other m1 _ eq_refl Hagain).
      rewrite Hend. reflexivity.
    + rewrite (notify_from_thrown code _ _ 0 m l e m1 _
                 ltac:(rewrite Hls; reflexivity) Hl).
      rewrite (notify_from_thrown code _ _ 1 m1 other e m1 _ eq_refl Hagain).
      rewrite Hend. reflexivity.
  - assert (Nat.eqb other l = false) as Hf by (apply Nat.eqb_neq, Hne).
    unfold calls_of, report.
    destruct (code other (state m) (context m) (props m));
      cbn; rewrite ?Nat.eqb_refl, ?Hf; reflexivity.
  - assert (Nat.eqb l other = false) as Hf
      by (apply Nat.eqb_neq; congruence).
    unfold calls_of, report.
    destruct (code other (state m) (context m) (props m));
      cbn; rewrite ?Nat.eqb_refl, ?Hf; reflexivity.
Qed.

End SubscribeInPass.

(** ** What an action sees of the machine *)

Section ActionReads.

Context {V : Type}.
Variable config : @MachineConfig V.
Variable code : listener_id -> @listener V.

Local Abbreviation run_at n := (run config code n).
Local Abbreviation send_at n := (send config code n (run config code n)).
Local Abbreviation notify_at n := (notify code n (run config code n)).
Local Abbreviation filtering ev :=
  (pistachio_filter (candidate config ev) (transitions config)).

(** X16.  The state is assigned before the action runs and the context
    after it.  An action handler of the winning transition [w] that reads
    the handle while it runs gets from [getState] the target [to w], from
    [matches] whether the target is among the states asked, and from
    [getContext] and [getProps] the context and props of before the
    dispatch; the mapping it returns from such an answer is merged, and the
    listeners (here making no call themselves) are notified after that. *)
Theorem action_reads_target_state_and_old_context
    (n : nat) (ev : MachineEvent) (m : machine)
    (found : list MachineTransition) (m1 : machine) (tr1 : trace)
    (w : MachineTransition) (name : string) (handler : action_handler)
    (c : call) (r : reply) (answer : reply -> option mapping) :
  running m = true ->
  processing m = false ->
  filtering ev (set_processing true m) = Some (Returned found, m1, tr1) ->
  pistachio_sort found by_priority !! 0%nat = Some w ->
  action w = Some name ->
  name <> EmptyString ->
  lookup_action config name = Some handler ->
  handler (params_of m ev) = Do c (fun reply => Ret (answer reply)) ->
  answer_in_action m w c = Some r ->
  Forall (fun l => forall s c p, direct (code l s c p))
         (registered (listeners m)) ->
  length (listeners m) < S (S n) ->
  exists m',
    send_at (S (S n)) ev m
    = Some (Returned tt, m',
            tr1 ++ ActionCalled name (params_of m ev)
                :: notification code m') /\
    state m' = to w /\
    context m' = match answer r with
                 | Some partial => pistachio_merge (context m) partial
                 | None => context m
                 end /\
    props m' = props m /\ listeners m' = listeners m /\
    running m' = true /\ processing m' = false.
Proof.
  intros Hr Hp Hf Hw Ha Hne Hl Hh Hans Hd Hb.
  set (mc := set_state (to w) (set_processing true m)).
  set (m3 := match answer r with
             | Some partial => set_context (spread2 (context mc) partial) mc
             | None => mc
             end).
  assert (run_at (S (S n)) (option mapping) (handler (params_of m ev)) mc
          = Some (Returned (answer r), mc, [])) as Hrun.
  { rewrite Hh.
    destruct c; cbn in Hans; try discriminate; injection Hans as <-;
      reflexivity. }
  assert (listeners m3 = listeners m) as Hls
    by (unfold m3; destruct (answer r); reflexivity).
  assert (notify_at (S (S n)) m3
          = Some (Returned tt, m3, notification code m3)) as Hn.
  { apply (notify_direct config code (S n)).
    - rewrite Hls. eapply Forall_impl; [exact Hd|]. intros l H. apply H.
    - rewrite Hls. exact Hb. }
  destruct (send_with_action config code (S (S n)) ev m found m1 tr1 w name
              handler (answer r) mc [] (Returned tt) m3
              (notification code m3)
              Hr Hp Hf Hw Ha Hne Hl Hrun Hn) as (Hsend & Hs & Hc).
  exists (set_processing false m3).
  split; [exact Hsend|]. split; [exact Hs|]. split; [exact Hc|].
  unfold m3. destruct (answer r); cbn; repeat split; assumption.
Qed.

End ActionReads.

(** ** The further properties on the traffic lights *)

Lemma start_stop_idempotent_and_inverse_witness :
  bind start (fun _ => stop) (createMachine priority_light)
  = Some (Returned tt, createMachine priority_light, []) /\
  bind stop (fun _ => start) (started priority_light)
  = Some (Returned tt, started priority_light, []).
Proof.
  destruct (start_stop_idempotent_and_inverse (createMachine priority_light))
    as (_ & _ & _ & _ & Hstopped & _).
  destruct (start_stop_idempotent_and_inverse (started priority_light))
    as (_ & _ & _ & _ & _ & Hrunning).
  split; [apply Hstopped|apply Hrunning]; reflexivity.
Defined.

Lemma events_while_stopped_are_discarded_witness :
  send_all reentrant_light test_listeners 3
           (run reentrant_light test_listeners 3)
           [TOGGLE; RESET; TOGGLE] (createMachine reentrant_light)
  = Some (Returned tt, createMachine reentrant_light, []) /\
  bind stop
       (fun _ =>
          bind (send_all reentrant_light test_listeners 3
                         (run reentrant_light test_listeners 3)
                         [TOGGLE; RESET])
               (fun _ => start)) (started reentrant_light)
  = Some (Returned tt, started reentrant_light, []).
Proof.
  split.
  - apply (proj1 (events_while_stopped_are_discarded
                    reentrant_light test_listeners 3 [TOGGLE; RESET; TOGGLE]
                    (createMachine reentrant_light))).
    reflexivity.
  - apply (proj2 (events_while_stopped_are_discarded
                    reentrant_light test_listeners 3 [TOGGLE; RESET]
                    (started reentrant_light))).
    reflexivity.
Defined.


Lemma send_action_error_keeps_new_state_witness :
  send failing_light test_listeners 1 (run failing_light test_listeners 1)
       TOGGLE (started failing_light)
  = Some (Thrown "boom", set_state "red" (started failing_light),
          [ActionCalled "increment"
                        (params_of (started failing_light) TOGGLE)]).
Proof.
  destruct (send_action_error_keeps_new_state
              failing_light test_listeners 1 TOGGLE (started failing_light)
              (transitions failing_light)
              (set_processing true (started failing_light)) []
              (Transition "green" "TOGGLE" "red" (Some "increment")
                          None None)
              "increment" (fun _ => Throw "boom") "boom"
              (set_state "red" (set_processing true (started failing_light)))
              []
              eq_refl eq_refl eq_refl eq_refl eq_refl
              ltac:(discriminate) eq_refl eq_refl)
    as (Hsend & _).
  exact Hsend.
Defined.

Lemma send_notifies_last_with_new_values_witness :
  send merging_light test_listeners 3 (run merging_light test_listeners 3)
       TOGGLE (set_listeners [Some 0; Some 1] (started merging_light))
  = Some (Returned tt,
          set_context {[ "count" := VNumber 15 ]}
            (set_state "red"
               (set_listeners [Some 0; Some 1] (started merging_light))),
          [ActionCalled "increment"
             (params_of (started merging_light) TOGGLE);
           ListenerCalled 0 "red" {[ "count" := VNumber 15 ]} ∅;
           ConsoleError "Listener error";
           ListenerCalled 1 "red" {[ "count" := VNumber 15 ]} ∅]).
Proof.
  destruct (send_notifies_last_with_new_values
              merging_light test_listeners 2 TOGGLE
              (set_listeners [Some 0; Some 1] (started merging_light))
              (transitions merging_light)
              (set_processing true
                 (set_listeners [Some 0; Some 1] (started merging_light)))
              []
              (Transition "green" "TOGGLE" "red" (Some "increment")
                          None None)
              (set_context {[ "count" := VNumber 15 ]}
                 (set_state "red"
                    (set_processing true
                       (set_listeners [Some 0; Some 1]
                                      (started merging_light)))))
              [ActionCalled "increment"
                 (params_of (started merging_light) TOGGLE)]
              eq_refl eq_refl eq_refl eq_refl eq_refl
              ltac:(repeat constructor) ltac:(cbn; lia))
    as (Hsend & _).
  exact Hsend.
Defined.

Lemma matches_reads_committed_state_witness :
  matches ["amber"; "red"] (set_state "red" (started actionless_light))
  = Some (Returned true, set_state "red" (started actionless_light), []) /\
  bind getState (fun s => matches [s])
       (set_state "red" (started actionless_light))
  = Some (Returned true, set_state "red" (started actionless_light), []).
Proof.
  destruct (matches_reads_committed_state
              actionless_light test_listeners 1 TOGGLE
              (started actionless_light)
              (transitions actionless_light)
              (set_processing true (started actionless_light)) []
              (Transition "green" "TOGGLE" "red" (Some "increment")
                          None None)
              (Thrown (action_not_found "increment"))
              (set_state "red" (started actionless_light)) []
              ["amber"; "red"]
              eq_refl eq_refl eq_refl eq_refl eq_refl)
    as (_ & Hm & _ & Hg).
  split; [exact Hm|exact Hg].
Defined.



Lemma send_from_listener_during_syncProps_witness :
  syncProps toggling_listeners 2 (run tied_light toggling_listeners 3)
            {[ "maxCount" := VNumber 10 ]}
            (set_listeners [Some 0] (started tied_light))
  = Some (Returned tt,
          set_state "red"
            (set_props {[ "maxCount" := VNumber 10 ]}
                       (set_listeners [Some 0] (started tied_light))),
          [ListenerCalled 0 "green" ∅ {[ "maxCount" := VNumber 10 ]};
           ListenerCalled 0 "red" ∅ {[ "maxCount" := VNumber 10 ]}]).
Proof.
  rewrite (send_from_listener_during_syncProps
             tied_light toggling_listeners 0 0 TOGGLE
             {[ "maxCount" := VNumber 10 ]}
             (set_listeners [Some 0] (started tied_light)) 0
             (transitions tied_light)
             (set_processing true
                (set_props {[ "maxCount" := VNumber 10 ]}
                           (set_listeners [Some 0] (started tied_light))))
             []
             (Transition "green" "TOGGLE" "red" None None (Some 5%Z))
             eq_refl eq_refl eq_refl ltac:(reflexivity)
             ltac:(vm_compute; reflexivity) eq_refl (or_introl eq_refl)).
  vm_compute. reflexivity.
Defined.


Lemma unsubscribing_listeners_do_not_disturb_the_pass_witness :
  notify once_listeners 4 (run priority_light once_listeners 2)
         (set_listeners [Some 0; Some 1; Some 2] (started priority_light))
  = Some (Returned tt,
          set_listeners [None; Some 1; Some 2] (started priority_light),
          [ListenerCalled 0 "green" ∅ ∅;
           ListenerCalled 1 "green" ∅ ∅;
           ConsoleError "Listener error";
           ListenerCalled 2 "green" ∅ ∅]).
Proof.
  destruct (unsubscribing_listeners_do_not_disturb_the_pass
              priority_light once_listeners 0 4 is_once
              (set_listeners [Some 0; Some 1; Some 2]
                             (started priority_light)))
    as (Hpass & _).
  - apply (bool_decide_unpack _). vm_compute. exact I.
  - intros [|[|l]] _; cbn; [intros s c p; reflexivity|exact (fun _ _ _ => I)..].
  - cbn. lia.
  - exact Hpass.
Defined.

Lemma resubscribing_moves_listener_last_witness :
  subscribe test_listeners (run priority_light test_listeners 1) 0
            (Some (Options (Some false))) observed_light
  = Some (Returned tt, observed_light, []) /\
  bind (unsubscribe 0)
       (fun _ =>
          subscribe test_listeners (run priority_light test_listeners 1) 0
                    (Some (Options (Some false)))) observed_light
  = Some (Returned tt,
          set_listeners [None; Some 1; Some 0] observed_light, []).
Proof.
  destruct (resubscribing_moves_listener_last
              test_listeners (run priority_light test_listeners 1) 0
              observed_light) as (Hagain & Hmove & _).
  split; [apply Hagain; cbn; tauto|exact Hmove].
Defined.

Lemma config_context_is_shared_until_first_merge_witness :
  context_ref (store_create (Some 1%positive) (Some 2%positive) test_store)
  = 1%positive /\
  context_ref
    (store_merge_context {[ "count" := 1%Z ]}
       (store_create (Some 1%positive) (Some 2%positive) test_store))
  <> 1%positive.
Proof.
  destruct (config_context_is_shared_until_first_merge
              1%positive (Some 2%positive) test_store
              (Object {[ "count" := 0%Z ]} false) "count" 7%Z
              eq_refl eq_refl) as (Hshared & _ & Hmerged).
  split; [exact Hshared|].
  exact (proj1 (Hmerged {[ "count" := 1%Z ]})).
Defined.

Lemma handle_calls_leave_machine_idle_in_declared_state_witness :
  processing (set_state "green" (started priority_light)) = false /\
  declared priority_light (state (set_state "green" (started priority_light))).
Proof.
  destruct (handle_calls_leave_machine_idle_in_declared_state
              priority_light test_listeners 3 (CallSend TOGGLE)
              (started priority_light) (Returned RVoid)
              (set_state "green" (started priority_light)) []
              eq_refl (or_introl eq_refl)
              ltac:(vm_compute; reflexivity)) as (Hidle & _).
  exact Hidle.
Defined.

Lemma listener_subscribed_in_pass_is_called_twice_witness :
  notify subscribing_listeners 3 (run priority_light subscribing_listeners 3)
         (set_listeners [Some 0] (started priority_light))
  = Some (Returned tt,
          set_listeners [Some 0; Some 1] (started priority_light),
          [ListenerCalled 0 "green" ∅ ∅;
           ListenerCalled 1 "green" ∅ ∅;
           ConsoleError "Listener error";
           ListenerCalled 1 "green" ∅ ∅;
           ConsoleError "Listener error"]).
Proof.
  destruct (listener_subscribed_in_pass_is_called_twice
              priority_light subscribing_listeners 0 0 0 1
              (set_listeners [Some 0] (started priority_light))
              eq_refl ltac:(discriminate) ltac:(intros s c p; reflexivity) I)
    as (Hpass & _).
  exact Hpass.
Defined.

Lemma action_reads_target_state_and_old_context_witness :
  exists m',
    send asking_light test_listeners 2 (run asking_light test_listeners 2)
         TOGGLE (started asking_light)
    = Some (Returned tt, m',
            [] ++ ActionCalled "increment"
                    (params_of (started asking_light) TOGGLE)
               :: notification test_listeners m') /\
    state m' = "red" /\
    context m' = pistachio_merge (context (started asking_light))
                                 {[ "count" := VNumber 1 ]}.
Proof.
  destruct (action_reads_target_state_and_old_context
              asking_light test_listeners 0 TOGGLE (started asking_light)
              (transitions asking_light)
              (set_processing true (started asking_light)) []
              (Transition "green" "TOGGLE" "red" (Some "increment")
                          None None)
              "increment" count_when_red (CallMatches ["red"]) (RBool true)
              (fun r =>
                 match r with
                 | RBool true => Some {[ "count" := VNumber 1 ]}
                 | _ => None
                 end)
              eq_refl eq_refl eq_refl eq_refl eq_refl
              ltac:(discriminate) eq_refl eq_refl eq_refl
              ltac:(constructor) ltac:(cbn; lia))
    as (m' & Hsend & Hs & Hc & _).
  exists m'. split; [exact Hsend|]. split; [exact Hs|exact Hc].
Defined.
